(** * The SQL persistence provider of [persistence/sql_provider.go]

    A shallow embedding of the provider that stores the events and the
    snapshots of actors in an SQL database, and the properties of its
    natural-language specification.

    The Go code talks to three outside parties, and each of them is explicit
    here:
    - protobuf ([proto.MessageName], [proto.Marshal], [proto.MessageType],
      [proto.Unmarshal]) is the class [Proto];
    - the Go library functions whose result the code only passes on
      ([url.Parse], [url.String], [filepath.Dir]) are the class [GoLib];
    - the database is a catalogue of tables ([Database]) that the calls
      thread, and whatever the driver can report on its own (an unreachable
      server, a rejected statement, a failed cursor) is an argument of the
      call that says what the driver reports this time.

    Logging has no effect on any result and is left out. *)

From stdpp Require Import base decidable option list strings gmap sorting.
From Stdlib Require Import ZArith Lia Ascii.

Local Open Scope Z_scope.

(** ** Values of the Go program *)

Definition bytes := list Byte.byte.

(** Go's [int]; the provider never computes with one, it stores, compares and
    returns them. [strconv.Atoi] is where the width shows (see [Atoi]). *)
Definition int := Z.

(** ** The schema of the [tables] array

    Of a [CREATE TABLE] statement the model keeps the table name and, for
    every column in order, its name, whether it is [NOT NULL] and whether it is
    the [PRIMARY KEY]. *)

Inductive sqltype : Type :=
| Varchar (n : nat)
| Int
| Blob.

Record column_def : Type := mkColumn {
  cd_name : string;
  cd_type : sqltype;
  cd_not_null : bool;
  cd_primary_key : bool
}.

Record create_table : Type := mkCreateTable {
  ct_name : string;
  ct_columns : list column_def
}.

Definition events_ddl : create_table :=
  mkCreateTable "events"
    [ mkColumn "actor_name" (Varchar 255) true false;
      mkColumn "event_type" (Varchar 255) true false;
      mkColumn "event_index" Int true false;
      mkColumn "event" Blob true false ].

Definition snapshots_ddl : create_table :=
  mkCreateTable "snapshots"
    [ mkColumn "actor_name" (Varchar 255) true true;
      mkColumn "snapshot_type" (Varchar 255) true false;
      mkColumn "event_index" Int true false;
      mkColumn "snapshot" Blob true false ].

Definition tables : list create_table := [ events_ddl; snapshots_ddl ].

(** ** Errors *)

Inductive error : Type :=
| ErrInvalidDriver (driver : string)
    (* fmt.Errorf("Invalid db driver %s", driver) *)
| ErrInvalidURL (dbUrlString : string)
    (* fmt.Errorf("Invalid DB URL in %s : %s", ...) *)
| ErrCreateTable (v : create_table) (cause : error)
    (* fmt.Errorf("Failed to create database table %s: %v", v, err) *)
| ErrUnsupportedType
    (* fmt.Errorf("Unsupported protocol type %s", protoType) *)
| ErrUnmarshal (reason : string)
    (* what proto.Unmarshal returns *)
| ErrMarshal (reason : string)
    (* what proto.Marshal returns *)
| ErrNoRows
    (* sql.ErrNoRows *)
| ErrNoSuchTable (name : string)
    (* the engine's answer to a statement on a table that is not there *)
| ErrDriver (reason : string)
    (* any other error of os, database/sql or the driver *)
| ErrSyntax (s : string)
| ErrRange (s : string).
    (* the two strconv.NumError kinds *)

(** A Go pair (value, error) of which exactly one side is set. The two
    constructors of the provider keep the pair as it is (see
    [NewSqlProvider]), because the specification speaks about it. *)
Inductive result (A : Type) : Type :=
| Ok (a : A)
| Err (e : error).
Arguments Ok {A} a.
Arguments Err {A} e.

(** How a call that may panic ends. [s] is the state the call leaves behind:
    the database for a write, what the consumer has built for a read. *)
Inductive outcome (S : Type) : Type :=
| Returned (s : S)
| Panicked (e : error) (s : S).
Arguments Returned {S} s.
Arguments Panicked {S} e s.

Definition state_of {S : Type} (o : outcome S) : S :=
  match o with
  | Returned s => s
  | Panicked _ s => s
  end.

(** ** Protobuf *)

Class Proto (message : Type) : Type := {
  (* a registered Go type, as proto.MessageType returns it *)
  protoType : Type;
  MessageName : message -> string;
  Marshal : message -> result bytes;
  (* None is Go's nil: no type is registered under the name *)
  MessageType : string -> option protoType;
  (* reflect.New(t.Elem()) and proto.Unmarshal into the new value *)
  Unmarshal : protoType -> bytes -> result message
}.

(** ** Rows and tables

    Both tables have the same four columns, in the same order: the actor, the
    type tag, the index and the encoded message. *)

Record Row : Type := mkRow {
  actor_name : string;
  type_tag : string;
  event_index : int;
  payload : bytes
}.

Inductive value : Type :=
| VText (s : string)
| VInt (z : int)
| VBlob (b : bytes).

Global Instance byte_eq_dec : EqDecision Byte.byte := Byte.byte_eq_dec.

Global Instance value_eq_dec : EqDecision value.
Proof. solve_decision. Defined.

Definition cells (r : Row) : list value :=
  [ VText (actor_name r); VText (type_tag r); VInt (event_index r);
    VBlob (payload r) ].

Record table : Type := mkTable {
  t_ddl : create_table;
  t_rows : list Row
}.

(** The catalogue: the tables of the database by name. *)
Abbreviation Database := (gmap string table).

(** ** The SQL statements of the provider

    The statements are SQLite's, the only dialect that has
    [INSERT OR REPLACE]. Each function takes what the driver reports for the
    statement ([None]: nothing, the statement runs). *)

(** Two rows collide when they agree on a column that is declared
    [PRIMARY KEY]. *)
Definition key_conflict (ddl : create_table) (r1 r2 : Row) : bool :=
  existsb
    (fun c : column_def * (value * value) =>
       cd_primary_key c.1 && bool_decide (c.2.1 = c.2.2))
    (zip (ct_columns ddl) (zip (cells r1) (cells r2))).

(** [INSERT OR REPLACE INTO t VALUES r]: the rows that collide with [r] are
    deleted, then [r] is inserted. *)
Definition insert_or_replace (t : table) (r : Row) : table :=
  mkTable (t_ddl t)
    (filter (fun old => ¬ key_conflict (t_ddl t) old r) (t_rows t) ++ [r]).

Definition exec_insert_or_replace (report : option error) (name : string)
    (r : Row) (db : Database) : result Database :=
  match report with
  | Some err => Err err
  | None =>
      match db !! name with
      | None => Err (ErrNoSuchTable name)
      | Some t => Ok (<[name := insert_or_replace t r]> db)
      end
  end.

(** [CREATE TABLE IF NOT EXISTS]: a table of that name that is already there
    stays as it is, rows and declaration. *)
Definition exec_create_table (report : option error) (v : create_table)
    (db : Database) : result Database :=
  match report with
  | Some err => Err err
  | None =>
      match db !! ct_name v with
      | Some _ => Ok db
      | None => Ok (<[ct_name v := mkTable v []]> db)
      end
  end.

Definition index_le (r1 r2 : Row) : Prop := event_index r1 <= event_index r2.

Global Instance index_le_dec : RelDecision index_le.
Proof. intros r1 r2. unfold index_le. apply _. Defined.

Global Instance index_le_total : Total index_le.
Proof. intros r1 r2. unfold index_le. lia. Qed.

Global Instance index_le_trans : Transitive index_le.
Proof. intros r1 r2 r3. unfold index_le. lia. Qed.

(** [WHERE actor_name = ? AND event_index >= ?] *)
Definition events_where (actorName : string) (eventIndexStart : int)
    (r : Row) : Prop :=
  actor_name r = actorName /\ eventIndexStart <= event_index r.

Global Instance events_where_dec actorName eventIndexStart r :
  Decision (events_where actorName eventIndexStart r).
Proof. unfold events_where. apply _. Defined.

(** [ORDER BY event_index ASC]: rows with the same index stay in the order
    of the table, which is how SQLite's sorter leaves them. *)
Fixpoint insert_by_index (r : Row) (l : list Row) : list Row :=
  match l with
  | [] => [r]
  | x :: l' =>
      if event_index r <=? event_index x then r :: l
      else x :: insert_by_index r l'
  end.

Definition order_by_index (l : list Row) : list Row :=
  foldr insert_by_index [] l.

(** [SELECT event_type,event_index,event FROM events where actor_name = ?
    AND event_index >= ? ORDER BY event_index ASC] *)
Definition select_events (actorName : string) (eventIndexStart : int)
    (db : Database) : result (list Row) :=
  match db !! "events" with
  | None => Err (ErrNoSuchTable "events")
  | Some t =>
      Ok (order_by_index
            (filter (events_where actorName eventIndexStart) (t_rows t)))
  end.

(** [WHERE actor_name = ?] *)
Definition of_actor (actorName : string) (r : Row) : Prop :=
  actor_name r = actorName.

Global Instance of_actor_dec actorName r : Decision (of_actor actorName r).
Proof. unfold of_actor. apply _. Defined.

Global Typeclasses Opaque index_le events_where of_actor.

(** [SELECT snapshot_type,event_index,snapshot FROM snapshots WHERE
    actor_name = ?] *)
Definition select_snapshot (actorName : string) (db : Database)
    : result (list Row) :=
  match db !! "snapshots" with
  | None => Err (ErrNoSuchTable "snapshots")
  | Some t => Ok (filter (of_actor actorName) (t_rows t))
  end.

(** ** What the driver can report while rows are read

    [rows.Next()] answers false at the end of the result set, and also when
    the cursor fails; the failure is then what [rows.Err()] holds.
    [rows.Scan] writes its destinations from left to right and stops at the
    first one it cannot write. *)

(** The three destinations of the two calls of [Scan], in their order. *)
Inductive destination : Type :=
| TypeDest
| IndexDest
| BytesDest.

(** [ScanFailed d err]: [Scan] stops with [err] before it writes [d]. *)
Inductive scan_report : Type :=
| ScanOk
| ScanFailed (d : destination) (err : error).

Record read_reports : Type := mkReports {
  (* Queryx or QueryRowx fails *)
  rr_query : option error;
  (* the cursor fails after having produced that many rows *)
  rr_cursor : option (nat * error);
  (* what Scan does on the n-th row of the result set, counted from 0 *)
  rr_scan : nat -> scan_report
}.

Definition no_reports : read_reports := mkReports None None (fun _ => ScanOk).

(** The three destinations of a [Scan], which the Go code declares just
    before the call: they hold the zero values where [Scan] has not written. *)
Definition scan_into (rep : scan_report) (r : Row) : string * int * bytes :=
  match rep with
  | ScanOk => (type_tag r, event_index r, payload r)
  | ScanFailed TypeDest _ => (""%string, 0, [])
  | ScanFailed IndexDest _ => (type_tag r, 0, [])
  | ScanFailed BytesDest _ => (type_tag r, event_index r, [])
  end.

(** A [*sqlx.Row]: the error of the query, or its rows, not yet read. *)
Record sqlx_Row : Type := mkSqlxRow {
  row_Err : option error;
  row_rows : list Row
}.

Definition QueryRowx (reports : read_reports) (actorName : string)
    (db : Database) : sqlx_Row :=
  match rr_query reports with
  | Some err => mkSqlxRow (Some err) []
  | None =>
      match select_snapshot actorName db with
      | Err err => mkSqlxRow (Some err) []
      | Ok rows => mkSqlxRow None rows
      end
  end.

(** [row.Scan]: the error of the query if there is one, the error of the
    cursor if it fails at once, [sql.ErrNoRows] if there is no row, and the
    first row otherwise. *)
Definition row_Scan (reports : read_reports) (row : sqlx_Row)
    : result (string * int * bytes) :=
  match row_Err row with
  | Some err => Err err
  | None =>
      match rr_cursor reports with
      | Some (O, err) => Err err
      | _ =>
          match row_rows row with
          | [] => Err ErrNoRows
          | r :: _ =>
              match rr_scan reports 0%nat with
              | ScanOk => Ok (scan_into ScanOk r)
              | ScanFailed _ err => Err err
              end
          end
      end
  end.

(** The rows a cursor produces before [rows.Next()] answers false. *)
Definition cursor_rows (reports : read_reports) (rows : list Row)
    : list Row :=
  match rr_cursor reports with
  | Some (n, _) => take n rows
  | None => rows
  end.

(** ** The provider *)

(** The part of a [*sqlx.DB] that [NewSqlProvider] sets. A limit of 0 open
    connections means no limit, as in database/sql. *)
Record DB : Type := mkDB {
  db_driver : string;
  db_dataSource : string;
  db_maxIdleConns : int;
  db_maxOpenConns : int
}.

Record SqlProvider : Type := mkSqlProvider {
  snapshotInterval : int;
  db : DB
}.

(** [Restart] does nothing. *)
Definition Restart (provider : SqlProvider) : unit := tt.

Definition GetSnapshotInterval (provider : SqlProvider) : int :=
  snapshotInterval provider.

Section Provider.
Context {message : Type} `{Proto message}.

Definition extractData (actorName : string) (msgTypeName : string)
    (msgBytes : bytes) : result message :=
  match MessageType msgTypeName with
  | None => Err ErrUnsupportedType
  | Some protoType =>
      match Unmarshal protoType msgBytes with
      | Err err => Err err
      | Ok message => Ok message
      end
  end.

(** The three results are [snapshot], [eventIndex] and [ok]; [None] is the
    nil interface value. *)
Definition GetSnapshot (provider : SqlProvider) (reports : read_reports)
    (actorName : string) (db : Database) : option message * int * bool :=
  let row := QueryRowx reports actorName db in
  match row_Err row with
  | Some _ => (None, -1, false)
  | None =>
      match row_Scan reports row with
      | Err ErrNoRows => (None, -1, false)
      | Err _ => (None, -1, false)
      | Ok (snapshotType, eventIndex, snapshotBytes) =>
          match extractData actorName snapshotType snapshotBytes with
          | Err _ => (None, -1, false)
          | Ok message => (Some message, eventIndex, true)
          end
      end
  end.

Definition PersistSnapshot (provider : SqlProvider) (report : option error)
    (actorName : string) (eventIndex : int) (snapshot : message)
    (db : Database) : outcome Database :=
  let pbType := MessageName snapshot in
  match Marshal snapshot with
  | Err err => Panicked err db
  | Ok pbBytes =>
      match exec_insert_or_replace report "snapshots"
              (mkRow actorName pbType eventIndex pbBytes) db with
      | Err err => Panicked err db
      | Ok db' => Returned db'
      end
  end.

Definition PersistEvent (provider : SqlProvider) (report : option error)
    (actorName : string) (eventIndex : int) (event : message)
    (db : Database) : outcome Database :=
  let pbType := MessageName event in
  match Marshal event with
  | Err err => Panicked err db
  | Ok pbBytes =>
      match exec_insert_or_replace report "events"
              (mkRow actorName pbType eventIndex pbBytes) db with
      | Err err => Panicked err db
      | Ok db' => Returned db'
      end
  end.

(** The loop of [GetEvents] over the rows the cursor produces; [n] counts the
    rows already read and [st] is what the callback has built so far. The
    error of [Scan] is dropped: the loop goes on with what the destinations
    hold. *)
Fixpoint replay {St : Type} (callback : message -> St -> St)
    (actorName : string) (reports : read_reports) (n : nat)
    (rows : list Row) (st : St) : outcome St :=
  match rows with
  | [] => Returned st
  | r :: rows' =>
      let '(eventType, eventIndex, eventBytes) :=
        scan_into (rr_scan reports n) r in
      match extractData actorName eventType eventBytes with
      | Err err => Panicked err st
      | Ok msg => replay callback actorName reports (S n) rows' (callback msg st)
      end
  end.

(** The callback is a Go closure; what it does is a function on a state of
    its own, [St]. *)
Definition GetEvents {St : Type} (provider : SqlProvider)
    (reports : read_reports) (actorName : string) (eventIndexStart : int)
    (callback : message -> St -> St) (st : St) (db : Database)
    : outcome St :=
  match rr_query reports with
  | Some err => Panicked err st
  | None =>
      match select_events actorName eventIndexStart db with
      | Err err => Panicked err st
      | Ok rows =>
          replay callback actorName reports 0 (cursor_rows reports rows) st
      end
  end.

(** The writes a caller issues one after the other, each with what the
    driver reports for it. A write that panics leaves the database as it
    was. *)
Inductive call : Type :=
| CallPersistEvent (report : option error) (actorName : string)
    (eventIndex : int) (event : message)
| CallPersistSnapshot (report : option error) (actorName : string)
    (eventIndex : int) (snapshot : message).

Definition run_call (provider : SqlProvider) (db : Database) (c : call)
    : Database :=
  match c with
  | CallPersistEvent report actorName eventIndex event =>
      state_of (PersistEvent provider report actorName eventIndex event db)
  | CallPersistSnapshot report actorName eventIndex snapshot =>
      state_of
        (PersistSnapshot provider report actorName eventIndex snapshot db)
  end.

Definition run_calls (provider : SqlProvider) (cs : list call)
    (db : Database) : Database :=
  foldl (run_call provider) db cs.

End Provider.

Arguments call message : clear implicits.

(** ** Construction *)

(** A [*url.URL], the fields the provider reads and the host, which is what
    [url.String] needs besides them. *)
Record URL : Type := mkURL {
  Scheme : string;
  Host : string;
  Path : string
}.

Class GoLib : Type := {
  url_Parse : string -> result URL;
  url_String : URL -> string;
  filepath_Dir : string -> string
}.

(** [strings.TrimPrefix] *)
Fixpoint strip_prefix (prefix s : string) : option string :=
  match prefix, s with
  | EmptyString, _ => Some s
  | String a prefix', String b s' =>
      if Ascii.eqb a b then strip_prefix prefix' s' else None
  | String _ _, EmptyString => None
  end.

Definition TrimPrefix (s prefix : string) : string :=
  default s (strip_prefix prefix s).

(** [strconv.Atoi] for a 64-bit [int]: an optional sign and decimal digits.
    Go returns a value beside the error; [NewProviderFromEnv] overwrites
    it. *)
Definition digit_of (c : ascii) : option Z :=
  let n := Z.of_N (Ascii.N_of_ascii c) in
  if (48 <=? n) && (n <=? 57) then Some (n - 48) else None.

Inductive digits_result : Type :=
| DigitsOk (n : Z)
| DigitsSyntax
| DigitsRange.

(** [strconv.ParseUint] in base 10 and 64 bits. The characters are read from
    the left: one that is not a digit is a syntax error, and a value that no
    longer fits is a range error, each where it is met. 1844674407370955162
    is the cutoff from which a further digit cannot fit. *)
Fixpoint parse_digits (s : string) (acc : Z) : digits_result :=
  match s with
  | EmptyString => DigitsOk acc
  | String c s' =>
      match digit_of c with
      | None => DigitsSyntax
      | Some d =>
          if 1844674407370955162 <=? acc then DigitsRange
          else if 2 ^ 64 - 1 <? acc * 10 + d then DigitsRange
          else parse_digits s' (acc * 10 + d)
      end
  end.

Definition Atoi (s : string) : int * option error :=
  let '(neg, digits) :=
    match s with
    | String "-"%char s' => (true, s')
    | String "+"%char s' => (false, s')
    | _ => (false, s)
    end in
  match digits with
  | EmptyString => (0, Some (ErrSyntax s))
  | String _ _ =>
      match parse_digits digits 0 with
      | DigitsSyntax => (0, Some (ErrSyntax s))
      | DigitsRange =>
          if neg then (- 2 ^ 63, Some (ErrRange s))
          else (2 ^ 63 - 1, Some (ErrRange s))
      | DigitsOk n =>
          if neg then
            if 2 ^ 63 <? n then (- 2 ^ 63, Some (ErrRange s)) else (- n, None)
          else
            if 2 ^ 63 <=? n then (2 ^ 63 - 1, Some (ErrRange s)) else (n, None)
      end
  end.

(** database/sql: the two pool settings. No idle limit set (0) stands for the
    default of 2, a negative one for none; a limit of open connections also
    caps the idle ones. *)
Definition maxIdleConnsLocked (d : DB) : int :=
  if db_maxIdleConns d =? 0 then 2
  else if db_maxIdleConns d <? 0 then 0
  else db_maxIdleConns d.

Definition SetMaxIdleConns (n : int) (d : DB) : DB :=
  let d1 :=
    mkDB (db_driver d) (db_dataSource d) (if 0 <? n then n else -1)
      (db_maxOpenConns d) in
  if (0 <? db_maxOpenConns d1) && (db_maxOpenConns d1 <? maxIdleConnsLocked d1)
  then mkDB (db_driver d) (db_dataSource d) (db_maxOpenConns d1)
         (db_maxOpenConns d1)
  else d1.

Definition SetMaxOpenConns (n : int) (d : DB) : DB :=
  let d1 :=
    mkDB (db_driver d) (db_dataSource d) (db_maxIdleConns d)
      (if n <? 0 then 0 else n) in
  if (0 <? db_maxOpenConns d1) && (db_maxOpenConns d1 <? maxIdleConnsLocked d1)
  then SetMaxIdleConns n d1
  else d1.

(** What is outside the process: the directories that exist and the database
    the descriptor leads to. *)
Record World : Type := mkWorld {
  w_dirs : gset string;
  w_db : gmap string table
}.

(** What the operating system and the driver report during construction. *)
Record open_reports : Type := mkOpenReports {
  or_mkdir : option error;                 (* os.MkdirAll *)
  (* how many of the directories above the path, from the top, os.MkdirAll
     has gone through when it fails *)
  or_mkdir_made : nat;
  or_open : option error;                  (* sql.Open *)
  or_ping : option error;                  (* sqlxDb.Ping *)
  or_exec : create_table -> option error   (* sqlxDb.Exec of a statement *)
}.

Definition no_open_reports : open_reports :=
  mkOpenReports None 0 None None (fun _ => None).

Fixpoint drop_while {A} (f : A -> bool) (l : list A) : list A :=
  match l with
  | [] => []
  | x :: l' => if f x then drop_while f l' else l
  end.

Definition is_separator (c : ascii) : bool := Ascii.eqb c "/"%char.

(** The path for which [os.MkdirAll] calls itself before it makes [path]:
    [path] without its trailing separators, its last element and the
    separator before it; none when nothing or the root alone is left. *)
Definition parent_path (path : string) : option string :=
  let backwards := reverse (String.list_ascii_of_string path) in
  let backwards := drop_while is_separator backwards in
  let backwards := drop_while (fun c => negb (is_separator c)) backwards in
  match backwards with
  | _ :: (_ :: _) as above =>
      Some (String.string_of_list_ascii (reverse above))
  | _ => None
  end.

Fixpoint paths_above (fuel : nat) (path : string) : list string :=
  match fuel with
  | O => []
  | S fuel' =>
      match parent_path path with
      | Some above => above :: paths_above fuel' above
      | None => []
      end
  end.

(** The directories above [path], the nearest first. *)
Definition parents (path : string) : list string :=
  paths_above (String.length path) path.

(** [os.MkdirAll]: the directories above the path are gone through from the
    top, then the path itself is made. After a call without an error all of
    them exist; a call that fails stops on the way and leaves what it has
    got to. The result is the error and the world the call leaves. *)
Definition MkdirAll (report : option error) (made : nat) (path : string)
    (w : World) : option error * World :=
  match report with
  | Some err =>
      (Some err,
       mkWorld (list_to_set (take made (reverse (parents path))) ∪ w_dirs w)
         (w_db w))
  | None =>
      (None,
       mkWorld (list_to_set (path :: parents path) ∪ w_dirs w) (w_db w))
  end.

Definition sql_Open (report : option error) (driver uri : string)
    : result DB :=
  match report with
  | Some err => Err err
  | None => Ok (mkDB driver uri 0 0)
  end.

(** [for _, v := range tables { _, err = sqlxDb.Exec(v) ... }] *)
Fixpoint create_tables (reports : open_reports) (stmts : list create_table)
    (db : Database) : option error * Database :=
  match stmts with
  | [] => (None, db)
  | v :: stmts' =>
      match exec_create_table (or_exec reports v) v db with
      | Err err => (Some (ErrCreateTable v err), db)
      | Ok db' => create_tables reports stmts' db'
      end
  end.

(** protoactor-go's in-memory provider, of which this file only calls the
    constructor. *)
Record InMemoryProvider : Type := NewInMemoryProvider {
  mem_snapshotInterval : int
}.

(** A value of the interface [persistence.ProviderState]: nil, or one of the
    two implementations. A [*SqlProvider] stored in the interface may itself
    be the nil pointer. *)
Inductive ProviderState : Type :=
| NilProviderState
| InMemoryState (p : InMemoryProvider)
| SqlState (p : option SqlProvider).

(** The values [setup.GetString] returns for the two settings. *)
Record Env : Type := mkEnv {
  EnvDBURL : string;
  EnvSnapshotInterval : string
}.

Section Construction.
Context `{GoLib}.

(** The result is the Go pair ([*SqlProvider], [error]), [None] for nil, and
    the world the call leaves. *)
Definition NewSqlProvider (url : URL) (snapshotInterval : int)
    (reports : open_reports) (w : World)
    : (option SqlProvider * option error) * World :=
  let driver := Scheme url in
  if bool_decide (driver = "mysql" \/ driver = "sqlite3") then
    let '(err, w1) :=
      if bool_decide (driver = "sqlite3")
      then MkdirAll (or_mkdir reports) (or_mkdir_made reports)
             (filepath_Dir (Path url)) w
      else (None, w) in
    match err with
    | Some err => ((None, Some err), w1)
    | None =>
        let uri := TrimPrefix (url_String url) (Scheme url +:+ "://") in
        match sql_Open (or_open reports) driver uri with
        | Err err => ((None, Some err), w1)
        | Ok sqldb =>
            match or_ping reports with
            | Some err => ((None, Some err), w1)
            | None =>
                let maxIdleConns := 256 in
                let sqlxDb := SetMaxIdleConns maxIdleConns sqldb in
                let sqlxDb :=
                  if bool_decide (driver = "sqlite3")
                  then SetMaxOpenConns 1 sqlxDb
                  else sqlxDb in
                match create_tables reports tables (w_db w1) with
                | (Some err, db') =>
                    ((None, Some err), mkWorld (w_dirs w1) db')
                | (None, db') =>
                    ((Some (mkSqlProvider snapshotInterval sqlxDb), None),
                     mkWorld (w_dirs w1) db')
                end
            end
        end
    end
  else ((None, Some (ErrInvalidDriver driver)), w).

Definition NewProviderFromEnv (env : Env) (reports : open_reports)
    (w : World) : (ProviderState * option error) * World :=
  let dbUrlString := EnvDBURL env in
  match url_Parse dbUrlString with
  | Err _ => ((NilProviderState, Some (ErrInvalidURL dbUrlString)), w)
  | Ok dbUrl =>
      let snapshotIntervalStr := EnvSnapshotInterval env in
      let '(snapshotInterval, ok) := Atoi snapshotIntervalStr in
      let snapshotInterval :=
        match ok with
        | Some _ => 1000
        | None => snapshotInterval
        end in
      if bool_decide (Scheme dbUrl = "inmem") then
        ((InMemoryState (NewInMemoryProvider snapshotInterval), None), w)
      else
        let '((provider, err), w') :=
          NewSqlProvider dbUrl snapshotInterval reports w in
        ((SqlState provider, err), w')
  end.

End Construction.

(** ** Notions the properties are stated with *)

(** The rows a table of the catalogue holds; none if the table is absent. *)
Definition rows_of (name : string) (db : Database) : list Row :=
  match db !! name with
  | Some t => t_rows t
  | None => []
  end.

(** The [snapshots] table is the one the provider declares and no two of its
    rows have the same actor. *)
Definition snapshots_keyed (db : Database) : Prop :=
  exists rows,
    db !! "snapshots" = Some (mkTable snapshots_ddl rows) /\
    NoDup (actor_name <$> rows).

Definition at_index (actorName : string) (eventIndex : int) (r : Row)
    : Prop :=
  actor_name r = actorName /\ event_index r = eventIndex.

Global Instance at_index_dec actorName eventIndex r :
  Decision (at_index actorName eventIndex r).
Proof. unfold at_index. apply _. Defined.

Global Typeclasses Opaque at_index.

(** What holds a provider: the nil interface and the interface around a nil
    pointer hold none. *)
Definition provider_of (ps : ProviderState)
    : option (InMemoryProvider + SqlProvider) :=
  match ps with
  | NilProviderState => None
  | InMemoryState p => Some (inl p)
  | SqlState None => None
  | SqlState (Some p) => Some (inr p)
  end.

(** The interval a provider was made with. *)
Definition interval_of (p : InMemoryProvider + SqlProvider) : int :=
  match p with
  | inl p => mem_snapshotInterval p
  | inr p => GetSnapshotInterval p
  end.

(** One of the steps of [NewSqlProvider] is reported to fail. *)
Definition step_fails (url : URL) (reports : open_reports) : Prop :=
  (Scheme url = "sqlite3" /\ is_Some (or_mkdir reports)) \/
  is_Some (or_open reports) \/
  is_Some (or_ping reports) \/
  (exists v, v ∈ tables /\ is_Some (or_exec reports v)).

(** The driver reports nothing during a read. *)
Definition quiet (reports : read_reports) : Prop :=
  rr_query reports = None /\
  rr_cursor reports = None /\
  forall n, rr_scan reports n = ScanOk.

Section Notions.
Context {message : Type} `{Proto message}.

(** The row decodes to the message. *)
Definition decoded (actorName : string) (r : Row) (m : message) : Prop :=
  extractData actorName (type_tag r) (payload r) = Ok m.

Definition writes_snapshot_of (actorName : string) (c : call message)
    : Prop :=
  match c with
  | CallPersistSnapshot _ a _ _ => a = actorName
  | CallPersistEvent _ _ _ _ => False
  end.

(** The row a call adds to the [events] table: the one of a [PersistEvent]
    whose message is encoded and whose statement the driver lets through. *)
Definition logged (c : call message) : option Row :=
  match c with
  | CallPersistEvent None actorName eventIndex event =>
      match Marshal event with
      | Ok pbBytes =>
          Some (mkRow actorName (MessageName event) eventIndex pbBytes)
      | Err _ => None
      end
  | _ => None
  end.




End Notions.

Global Instance Row_eq_dec : EqDecision Row.
Proof. solve_decision. Defined.

(** ** A small registry and a small library, for concrete runs

    Three message types are registered. A message is its type name and its
    encoded body; a body that starts with the byte [xff] does not parse. A
    descriptor is [scheme://host/path]. *)
Module Demo.

Record msg : Type := mkMsg {
  msg_name : string;
  msg_body : bytes
}.

Definition registered : list string := [ "EventA"; "EventB"; "SnapA" ]%string.

Definition demo_Unmarshal (t : string) (b : bytes) : result msg :=
  match b with
  | Byte.xff :: _ => Err (ErrUnmarshal "unexpected EOF")
  | _ => Ok (mkMsg t b)
  end.

#[export] Instance demo_proto : Proto msg := {|
  protoType := string;
  MessageName := msg_name;
  Marshal := fun m => Ok (msg_body m);
  MessageType := fun name =>
    if bool_decide (name ∈ registered) then Some name else None;
  Unmarshal := demo_Unmarshal
|}.

(** The text before the first occurrence of [sep], and the text after it. *)
Fixpoint split_at (sep : string) (s : string) : option (string * string) :=
  match strip_prefix sep s with
  | Some rest => Some (EmptyString, rest)
  | None =>
      match s with
      | EmptyString => None
      | String c s' =>
          match split_at sep s' with
          | Some (before, rest) => Some (String c before, rest)
          | None => None
          end
      end
  end.

Definition demo_Parse (s : string) : result URL :=
  match split_at "://" s with
  | None => Err (ErrDriver "missing protocol scheme")
  | Some (scheme, rest) =>
      match split_at "/" rest with
      | None => Ok (mkURL scheme rest "")
      | Some (host, path) => Ok (mkURL scheme host (String "/"%char path))
      end
  end.

Fixpoint demo_Dir_aux (s : string) : option string :=
  match s with
  | EmptyString => None
  | String c s' =>
      match demo_Dir_aux s' with
      | Some d => Some (String c d)
      | None => if Ascii.eqb c "/"%char then Some EmptyString else None
      end
  end.

Definition demo_Dir (s : string) : string :=
  match demo_Dir_aux s with
  | Some EmptyString => "/"
  | Some d => d
  | None => "."
  end.

#[export] Instance demo_lib : GoLib := {|
  url_Parse := demo_Parse;
  url_String := fun u => Scheme u +:+ "://" +:+ Host u +:+ Path u;
  filepath_Dir := demo_Dir
|}.

Definition fresh : World := mkWorld ∅ ∅.

Definition sqlite_url : URL := mkURL "sqlite3" "" "/data/flow.db".

(** A provider on a new SQLite file. *)
Definition opened : (option SqlProvider * option error) * World :=
  NewSqlProvider sqlite_url 1000 no_open_reports fresh.

Definition provider : SqlProvider :=
  default (mkSqlProvider 0 (mkDB "" "" 0 0)) opened.1.1.

Definition db0 : gmap string table := w_db opened.2.

Definition EventA (body : Byte.byte) : msg := mkMsg "EventA" [body].
Definition EventB (body : Byte.byte) : msg := mkMsg "EventB" [body].
Definition SnapA (body : Byte.byte) : msg := mkMsg "SnapA" [body].

(** A message of a type that is not registered, and one whose body does not
    parse. *)
Definition Unknown : msg := mkMsg "EventZ" [Byte.x00].
Definition Corrupt : msg := mkMsg "EventA" [Byte.xff].

(** The events of actor A at the indices 0, 1, 2, 5 and 7, written out of
    order and mixed with those of actor B; the body of an event is its
    index. *)
Definition history : list (call msg) :=
  [ CallPersistEvent None "A" 5 (EventA Byte.x05);
    CallPersistEvent None "B" 3 (EventB Byte.x03);
    CallPersistEvent None "A" 0 (EventA Byte.x00);
    CallPersistEvent None "A" 7 (EventB Byte.x07);
    CallPersistEvent None "B" 6 (EventA Byte.x06);
    CallPersistEvent None "A" 2 (EventA Byte.x02);
    CallPersistEvent None "A" 1 (EventB Byte.x01);
    CallPersistSnapshot None "B" 6 (SnapA Byte.x06) ].

Definition db_history : gmap string table := run_calls provider history db0.

(** The same history, then an event of a type that is not registered and a
    snapshot whose payload does not parse, both for actor A. *)
Definition db_bad : gmap string table :=
  run_calls provider
    [ CallPersistEvent None "A" 3 Unknown;
      CallPersistSnapshot None "A" 7 Corrupt ]
    db_history.

(** The consumer that keeps what it is given, in order. *)
Definition collect (m : msg) (st : list msg) : list msg := st ++ [m].

Definition mysql_url : URL := mkURL "mysql" "flow@tcp(db:3306)" "/flow".

(** The driver rejects the query. *)
Definition query_rejected : read_reports :=
  mkReports (Some (ErrDriver "database is locked")) None (fun _ => ScanOk).

(** [Scan] fails on the third row before it has written anything. *)
Definition scan_fails_third : read_reports :=
  mkReports None None
    (fun n => if bool_decide (n = 2%nat)
              then ScanFailed TypeDest (ErrDriver "sql: Rows are closed")
              else ScanOk).

(** The cursor fails after three rows. *)
Definition cursor_fails_third : read_reports :=
  mkReports None (Some (3%nat, ErrDriver "connection reset by peer"))
    (fun _ => ScanOk).

(** The server does not answer the ping. *)
Definition ping_fails : open_reports :=
  mkOpenReports None 0 None (Some (ErrDriver "connection refused"))
    (fun _ => None).

End Demo.


(** * Properties *)

(** ** [ORDER BY event_index] *)

Lemma insert_by_index_Permutation r l : insert_by_index r l ≡ₚ r :: l.
Proof.
  induction l as [|x l IH]; cbn; [done|].
  destruct (event_index r <=? event_index x); [done|].
  rewrite IH. apply Permutation_swap.
Qed.

Lemma order_by_index_cons r l :
  order_by_index (r :: l) = insert_by_index r (order_by_index l).
Proof. reflexivity. Qed.

Lemma order_by_index_Permutation l : order_by_index l ≡ₚ l.
Proof.
  induction l as [|r l IH]; [done|].
  by rewrite order_by_index_cons, insert_by_index_Permutation, IH.
Qed.

Lemma StronglySorted_insert_by_index r l :
  StronglySorted index_le l -> StronglySorted index_le (insert_by_index r l).
Proof.
  induction 1 as [|x l Hl IH Hx]; cbn; [repeat constructor|].
  destruct (Z.leb_spec (event_index r) (event_index x)) as [Hle|Hlt].
  - constructor; [by constructor|]. constructor; [done|].
    eapply Forall_impl; [exact Hx|]. unfold index_le. cbn. lia.
  - constructor; [done|]. rewrite insert_by_index_Permutation.
    constructor; [unfold index_le; lia|done].
Qed.

Lemma StronglySorted_order_by_index l :
  StronglySorted index_le (order_by_index l).
Proof.
  induction l as [|r l IH]; [constructor|].
  rewrite order_by_index_cons. by apply StronglySorted_insert_by_index.
Qed.




Lemma StronglySorted_lookup_le (l : list Row) i j ri rj :
  StronglySorted index_le l ->
  (i <= j)%nat -> l !! i = Some ri -> l !! j = Some rj ->
  event_index ri <= event_index rj.
Proof.
  intros Hl. revert i j.
  induction Hl as [|x l _ IH Hx]; intros i j Hij Hi Hj; [done|].
  destruct i as [|i], j as [|j]; cbn in Hi, Hj; try lia.
  - injection Hi as <-. injection Hj as <-. lia.
  - injection Hi as <-. rewrite Forall_lookup in Hx. by apply (Hx j).
  - apply (IH i j); [lia|done|done].
Qed.

Lemma strictly_sorted_le (l : list Row) :
  StronglySorted (fun r1 r2 => event_index r1 < event_index r2) l ->
  StronglySorted index_le l.
Proof.
  induction 1 as [|r l _ IH Hall]; constructor; [done|].
  eapply Forall_impl; [done|]. unfold index_le. cbn. lia.
Qed.

(** Among rows in strictly ascending order an index occurs once. *)
Lemma strictly_sorted_inj (l : list Row) x1 x2 :
  StronglySorted (fun r1 r2 => event_index r1 < event_index r2) l ->
  x1 ∈ l -> x2 ∈ l -> event_index x1 = event_index x2 -> x1 = x2.
Proof.
  induction 1 as [|r l _ IH Hall]; intros H1 H2 Heq;
    [by apply elem_of_nil in H1|].
  rewrite Forall_forall in Hall.
  apply elem_of_cons in H1 as [->|H1], H2 as [->|H2]; [done| | |by apply IH].
  - apply Hall in H2. lia.
  - apply Hall in H1. lia.
Qed.

Section Facts.
Context {message : Type} `{Proto message}.

(** ** The two tables and [INSERT OR REPLACE] *)

Lemma key_conflict_events r1 r2 : key_conflict events_ddl r1 r2 = false.
Proof. reflexivity. Qed.

Lemma key_conflict_snapshots r1 r2 :
  key_conflict snapshots_ddl r1 r2
  = bool_decide (actor_name r1 = actor_name r2).
Proof.
  unfold key_conflict; cbn. rewrite !orb_false_r.
  apply bool_decide_ext. split; congruence.
Qed.

Lemma filter_all {A} (P : A -> Prop) `{forall x, Decision (P x)} (l : list A) :
  Forall P l -> filter P l = l.
Proof.
  induction 1 as [|x l Hx _ IH]; [done|].
  rewrite filter_cons_True by done. by rewrite IH.
Qed.

Lemma filter_none {A} (P : A -> Prop) `{forall x, Decision (P x)} (l : list A) :
  Forall (fun x => ~ P x) l -> filter P l = [].
Proof.
  induction 1 as [|x l Hx _ IH]; [done|].
  by rewrite filter_cons_False.
Qed.

Lemma insert_into_events rows r :
  insert_or_replace (mkTable events_ddl rows) r
  = mkTable events_ddl (rows ++ [r]).
Proof.
  unfold insert_or_replace; cbn [t_ddl t_rows]. f_equal. f_equal.
  apply filter_all, Forall_forall. intros old _.
  rewrite key_conflict_events. exact id.
Qed.

Lemma insert_into_snapshots rows r :
  insert_or_replace (mkTable snapshots_ddl rows) r
  = mkTable snapshots_ddl
      (filter (fun old => actor_name old <> actor_name r) rows ++ [r]).
Proof.
  unfold insert_or_replace; cbn [t_ddl t_rows]. f_equal. f_equal.
  apply list_filter_iff. intros old.
  rewrite key_conflict_snapshots. by rewrite bool_decide_spec.
Qed.

Lemma PersistEvent_returns provider actorName eventIndex event pbBytes
    (db : Database) rows :
  Marshal event = Ok pbBytes ->
  db !! "events" = Some (mkTable events_ddl rows) ->
  PersistEvent provider None actorName eventIndex event db
  = Returned
      (<["events" :=
          mkTable events_ddl
            (rows ++ [mkRow actorName (MessageName event) eventIndex pbBytes])]>
         db).
Proof.
  intros HM Hdb. unfold PersistEvent, exec_insert_or_replace.
  by rewrite HM, Hdb, insert_into_events.
Qed.

Lemma PersistSnapshot_returns provider actorName eventIndex snapshot pbBytes
    (db : Database) rows :
  Marshal snapshot = Ok pbBytes ->
  db !! "snapshots" = Some (mkTable snapshots_ddl rows) ->
  PersistSnapshot provider None actorName eventIndex snapshot db
  = Returned
      (<["snapshots" :=
          mkTable snapshots_ddl
            (filter (fun old => actor_name old <> actorName) rows
               ++ [mkRow actorName (MessageName snapshot) eventIndex pbBytes])]>
         db).
Proof.
  intros HM Hdb. unfold PersistSnapshot, exec_insert_or_replace.
  by rewrite HM, Hdb, insert_into_snapshots.
Qed.

(** A write changes its own table only, if anything. *)
Lemma PersistEvent_other_table provider report actorName eventIndex event
    (db : Database) name :
  name <> "events" ->
  state_of (PersistEvent provider report actorName eventIndex event db)
    !! name = db !! name.
Proof.
  intros Hne. unfold PersistEvent, exec_insert_or_replace.
  destruct (Marshal event); [|done].
  destruct report; [done|].
  destruct (db !! "events"); [|done].
  cbn. by rewrite lookup_insert_ne.
Qed.

Lemma PersistSnapshot_other_table provider report actorName eventIndex
    snapshot (db : Database) name :
  name <> "snapshots" ->
  state_of (PersistSnapshot provider report actorName eventIndex snapshot db)
    !! name = db !! name.
Proof.
  intros Hne. unfold PersistSnapshot, exec_insert_or_replace.
  destruct (Marshal snapshot); [|done].
  destruct report; [done|].
  destruct (db !! "snapshots"); [|done].
  cbn. by rewrite lookup_insert_ne.
Qed.

(** ** The snapshot table keeps one row per actor *)

Lemma NoDup_actor_filter (P : Row -> Prop) `{forall r, Decision (P r)} rows :
  NoDup (actor_name <$> rows) -> NoDup (actor_name <$> filter P rows).
Proof.
  induction rows as [|r rows IH]; [done|].
  rewrite fmap_cons, NoDup_cons. intros [Hr Hnd].
  rewrite filter_cons. destruct (decide (P r)); [|by apply IH].
  rewrite fmap_cons, NoDup_cons. split; [|by apply IH].
  intros (r' & Heq & Hin)%list_elem_of_fmap.
  apply list_elem_of_filter in Hin as [_ Hin].
  apply Hr, list_elem_of_fmap. eauto.
Qed.

Lemma PersistSnapshot_keeps_keyed provider report actorName eventIndex
    snapshot db :
  snapshots_keyed db ->
  snapshots_keyed
    (state_of
       (PersistSnapshot provider report actorName eventIndex snapshot db)).
Proof.
  intros (rows & Hdb & Hnd). unfold PersistSnapshot, exec_insert_or_replace.
  destruct (Marshal snapshot) as [pbBytes|]; [|by exists rows].
  destruct report; [by exists rows|].
  rewrite Hdb, insert_into_snapshots. cbn.
  eexists. rewrite lookup_insert_eq. split; [done|].
  rewrite fmap_app. apply NoDup_app. split_and!.
  - by apply NoDup_actor_filter.
  - intros a (r & -> & Hin)%list_elem_of_fmap.
    apply list_elem_of_filter in Hin as [Hne _]. cbn in Hne |- *.
    by rewrite list_elem_of_singleton.
  - apply NoDup_singleton.
Qed.

Lemma PersistEvent_keeps_keyed provider report actorName eventIndex event db :
  snapshots_keyed db ->
  snapshots_keyed
    (state_of (PersistEvent provider report actorName eventIndex event db)).
Proof.
  intros (rows & Hdb & Hnd). exists rows. split; [|done].
  by rewrite PersistEvent_other_table.
Qed.

Lemma run_calls_keeps_keyed provider cs db :
  snapshots_keyed db -> snapshots_keyed (run_calls provider cs db).
Proof.
  unfold run_calls. revert db.
  induction cs as [|c cs IH]; intros db Hk; [done|].
  cbn. apply IH. destruct c; cbn.
  - by apply PersistEvent_keeps_keyed.
  - by apply PersistSnapshot_keeps_keyed.
Qed.

(** ** Reading a snapshot *)

Lemma GetSnapshot_no_row provider reports actorName db :
  Forall (fun r => actor_name r <> actorName) (rows_of "snapshots" db) ->
  GetSnapshot provider reports actorName db = (None, -1, false).
Proof.
  intros Hrows. unfold GetSnapshot, QueryRowx, select_snapshot.
  destruct (rr_query reports); [done|].
  unfold rows_of in Hrows.
  destruct (db !! "snapshots") as [t|]; [|done].
  rewrite (filter_none (of_actor actorName) _ Hrows). unfold row_Scan. cbn.
  by destruct (rr_cursor reports) as [[[|n] e]|]; try destruct e.
Qed.

Lemma quiet_no_reports : quiet no_reports.
Proof. by split_and!. Qed.

Lemma GetSnapshot_first_row provider reports actorName (db : Database) t r
    rest :
  quiet reports ->
  db !! "snapshots" = Some t ->
  filter (of_actor actorName) (t_rows t) = r :: rest ->
  GetSnapshot provider reports actorName db
  = match extractData actorName (type_tag r) (payload r) with
    | Ok m => (Some m, event_index r, true)
    | Err _ => (None, -1, false)
    end.
Proof.
  intros (Hq & Hc & Hs) Hdb Hrows.
  unfold GetSnapshot, QueryRowx, select_snapshot, row_Scan.
  rewrite Hq, Hdb, Hrows. cbn [row_Err row_rows]. rewrite Hc, Hs.
  cbn [scan_into].
  by destruct (extractData _ _ _).
Qed.

Lemma rows_after_PersistSnapshot actorName rows r :
  actor_name r = actorName ->
  filter (of_actor actorName)
    (filter (fun old => actor_name old <> actorName) rows ++ [r]) = [r].
Proof.
  intros Hr. rewrite filter_app, filter_singleton_True by done.
  rewrite filter_none; [done|].
  apply Forall_forall. by intros old [Hne _]%list_elem_of_filter.
Qed.

(** Writes for other actors leave an actor without a snapshot row. *)
Lemma run_call_no_row provider actorName c db :
  ~ writes_snapshot_of actorName c ->
  Forall (fun r => actor_name r <> actorName) (rows_of "snapshots" db) ->
  Forall (fun r => actor_name r <> actorName)
    (rows_of "snapshots" (run_call provider db c)).
Proof.
  intros Hc Hrows. destruct c as [report a i e|report a i e]; cbn.
  - unfold rows_of. by rewrite PersistEvent_other_table.
  - cbn in Hc. unfold PersistSnapshot, exec_insert_or_replace.
    destruct (Marshal e) as [pbBytes|]; [|done].
    destruct report; [done|].
    unfold rows_of in *.
    destruct (db !! "snapshots") as [t|] eqn:Hdb; cbn; [|by rewrite Hdb].
    rewrite lookup_insert_eq. cbn.
    apply Forall_app. split.
    + apply Forall_forall. intros r [_ Hin]%list_elem_of_filter.
      by eapply Forall_forall in Hrows.
    + by apply Forall_singleton.
Qed.

Lemma run_calls_no_row provider actorName cs db :
  Forall (fun c => ~ writes_snapshot_of actorName c) cs ->
  Forall (fun r => actor_name r <> actorName) (rows_of "snapshots" db) ->
  Forall (fun r => actor_name r <> actorName)
    (rows_of "snapshots" (run_calls provider cs db)).
Proof.
  unfold run_calls. intros Hcs. revert db.
  induction Hcs as [|c cs Hc _ IH]; intros db Hrows; [done|].
  cbn. by apply IH, run_call_no_row.
Qed.

End Facts.

(** ** Construction *)

Lemma create_tables_ok reports stmts (db db' : Database) :
  create_tables reports stmts db = (None, db') ->
  (forall v, v ∈ stmts -> or_exec reports v = None) /\
  (forall v, v ∈ stmts -> is_Some (db' !! ct_name v)) /\
  (forall name t, db !! name = Some t -> db' !! name = Some t) /\
  (forall name, db !! name = None ->
     db' !! name = None \/
     exists v, v ∈ stmts /\ ct_name v = name /\
       db' !! name = Some (mkTable v [])).
Proof.
  revert db. induction stmts as [|v stmts IH]; intros db; cbn.
  - intros [= <-]. split_and!; [by intros ? ?%elem_of_nil ..|done|auto].
  - unfold exec_create_table.
    destruct (or_exec reports v) eqn:Hv; [done|].
    destruct (db !! ct_name v) as [t|] eqn:Hdb.
    + intros (Hrep & Hin & Hold & Hnew)%IH. split_and!.
      * by intros v' [->|?]%elem_of_cons; [|apply Hrep].
      * intros v' [->|?]%elem_of_cons; [|by apply Hin].
        rewrite (Hold _ _ Hdb). eauto.
      * done.
      * intros name Hname. destruct (Hnew _ Hname) as [|(v' & ? & ? & ?)];
          [by left|right]. exists v'. by rewrite elem_of_cons; auto.
    + intros (Hrep & Hin & Hold & Hnew)%IH. split_and!.
      * by intros v' [->|?]%elem_of_cons; [|apply Hrep].
      * intros v' [->|?]%elem_of_cons; [|by apply Hin].
        erewrite Hold; [eauto|]. by rewrite lookup_insert_eq.
      * intros name t Hname. apply Hold.
        rewrite lookup_insert_ne; [done|]. intros <-. congruence.
      * intros name Hname. destruct (decide (name = ct_name v)) as [->|Hne].
        { right. exists v. split_and!; [by left|done|].
          apply Hold. by rewrite lookup_insert_eq. }
        destruct (Hnew name) as [|(v' & ? & ? & ?)].
        { by rewrite lookup_insert_ne. }
        { by left. }
        right. exists v'. by rewrite elem_of_cons; auto.
Qed.

Lemma in_tables v : v ∈ tables -> v = events_ddl \/ v = snapshots_ddl.
Proof.
  unfold tables. rewrite elem_of_cons, list_elem_of_singleton. tauto.
Qed.

Lemma create_tables_fails reports stmts (db : Database) v :
  v ∈ stmts -> is_Some (or_exec reports v) ->
  exists err db', create_tables reports stmts db = (Some err, db').
Proof.
  intros Hin Hv. revert db.
  induction stmts as [|v' stmts IH]; intros db; [by apply elem_of_nil in Hin|].
  cbn. unfold exec_create_table.
  destruct (or_exec reports v') eqn:Hv'; [eauto|].
  apply elem_of_cons in Hin as [->|Hin].
  { rewrite Hv' in Hv. by destruct Hv. }
  destruct (db !! ct_name v'); by apply IH.
Qed.

Section ConstructionFacts.
Context `{GoLib}.

(** The pool settings [NewSqlProvider] ends with. *)
Lemma NewSqlProvider_success url n reports w p w' :
  NewSqlProvider url n reports w = ((Some p, None), w') ->
  (Scheme url = "mysql" \/ Scheme url = "sqlite3") /\
  ~ step_fails url reports /\
  snapshotInterval p = n /\
  db_maxIdleConns (db p) = (if bool_decide (Scheme url = "sqlite3") then 1 else 256) /\
  db_maxOpenConns (db p) = (if bool_decide (Scheme url = "sqlite3") then 1 else 0) /\
  create_tables reports tables (w_db w) = (None, w_db w').
Proof.
  unfold NewSqlProvider, MkdirAll, sql_Open, step_fails.
  case_bool_decide as Hdrv; [|done].
  destruct (create_tables reports tables (w_db w)) as [cerr db'] eqn:Hct.
  case_bool_decide as Hsq.
  - destruct (or_mkdir reports) eqn:Hmk; [done|].
    destruct (or_open reports) eqn:Hop; [done|].
    destruct (or_ping reports) eqn:Hpi; [done|].
    cbn [w_db w_dirs]. rewrite Hct. destruct cerr; [done|].
    intros [= <- <-]. split_and!; try done.
    intros [[_ []]|[[]|[[]|(v & Hv & Hs)]]]; try done.
    apply create_tables_ok in Hct as (Hrep & _).
    rewrite (Hrep _ Hv) in Hs. by destruct Hs.
  - destruct (or_open reports) eqn:Hop; [done|].
    destruct (or_ping reports) eqn:Hpi; [done|].
    rewrite Hct. destruct cerr; [done|].
    intros [= <- <-]. split_and!; try done.
    intros [[? _]|[[]|[[]|(v & Hv & Hs)]]]; try done.
    apply create_tables_ok in Hct as (Hrep & _).
    rewrite (Hrep _ Hv) in Hs. by destruct Hs.
Qed.

Lemma NewSqlProvider_pair url n reports w :
  (exists p, (NewSqlProvider url n reports w).1 = (Some p, None)) \/
  (exists err, (NewSqlProvider url n reports w).1 = (None, Some err)).
Proof.
  unfold NewSqlProvider.
  case_bool_decide; [|eauto].
  destruct (if bool_decide (Scheme url = "sqlite3") then _ else _)
    as [[err|] w1]; [eauto|].
  destruct (sql_Open _ _ _); [|eauto].
  destruct (or_ping reports); [eauto|].
  destruct (create_tables _ _ _) as [[?|] ?]; eauto.
Qed.

Lemma NewSqlProvider_step_fails url n reports w :
  step_fails url reports ->
  exists err, (NewSqlProvider url n reports w).1 = (None, Some err).
Proof.
  intros Hf. destruct (NewSqlProvider_pair url n reports w) as [[p Hp]|]; [|done].
  destruct (NewSqlProvider url n reports w) as [[? ?] w'] eqn:Hnew.
  cbn in Hp. injection Hp as -> ->.
  by apply NewSqlProvider_success in Hnew as (_ & Hnf & _).
Qed.

Lemma NewSqlProvider_keyed url n reports w p w' :
  NewSqlProvider url n reports w = ((Some p, None), w') ->
  w_db w !! "snapshots" = None \/ snapshots_keyed (w_db w) ->
  snapshots_keyed (w_db w').
Proof.
  intros (_ & _ & _ & _ & _ & Hct)%NewSqlProvider_success Hw.
  apply create_tables_ok in Hct as (_ & Hin & Hold & Hnew).
  destruct Hw as [Hw|(rows & Hw & Hnd)].
  - destruct (Hnew _ Hw) as [Hno|(v & Hv & Hname & Hdb)].
    + destruct (Hin snapshots_ddl) as [t Ht]; [set_solver|].
      cbn in Ht. congruence.
    + exists []. split; [|constructor].
      rewrite Hdb. do 2 f_equal.
      by destruct (in_tables v Hv) as [->| ->].
  - exists rows. split; [|done]. by apply Hold.
Qed.

End ConstructionFacts.

(** ** Reading events *)

Section EventFacts.
Context {message : Type} `{Proto message}.

Lemma select_events_sorted actorName eventIndexStart (db : Database) t :
  db !! "events" = Some t ->
  exists selected,
    select_events actorName eventIndexStart db = Ok selected /\
    selected ≡ₚ filter (events_where actorName eventIndexStart) (t_rows t) /\
    StronglySorted index_le selected.
Proof.
  intros Hdb. unfold select_events. rewrite Hdb. eexists. split_and!.
  - done.
  - apply order_by_index_Permutation.
  - apply StronglySorted_order_by_index.
Qed.

Lemma GetEvents_replay {St} provider reports actorName eventIndexStart
    (callback : message -> St -> St) st db rows :
  rr_query reports = None ->
  select_events actorName eventIndexStart db = Ok rows ->
  GetEvents provider reports actorName eventIndexStart callback st db
  = replay callback actorName reports 0 (cursor_rows reports rows) st.
Proof. intros Hq Hsel. unfold GetEvents. by rewrite Hq, Hsel. Qed.

(** The loop over rows that are scanned and decoded without an error. *)
Lemma replay_app {St} (callback : message -> St -> St) actorName reports n
    pre post msgs st :
  (forall i, (n <= i < n + length pre)%nat -> rr_scan reports i = ScanOk) ->
  Forall2 (decoded actorName) pre msgs ->
  replay callback actorName reports n (pre ++ post) st
  = replay callback actorName reports (n + length pre) post
      (foldl (fun s m => callback m s) st msgs).
Proof.
  intros Hscan Hdec. revert n st Hscan.
  induction Hdec as [|r m pre msgs Hr _ IH]; intros n st Hscan; cbn.
  - by rewrite Nat.add_0_r.
  - rewrite Hscan by (cbn; lia). cbn. rewrite Hr.
    rewrite IH; [f_equal; lia|].
    intros i Hi. apply Hscan. cbn. lia.
Qed.

Lemma replay_decoded {St} (callback : message -> St -> St) actorName reports
    n rows msgs st :
  (forall i, (n <= i < n + length rows)%nat -> rr_scan reports i = ScanOk) ->
  Forall2 (decoded actorName) rows msgs ->
  replay callback actorName reports n rows st
  = Returned (foldl (fun s m => callback m s) st msgs).
Proof.
  intros Hscan Hdec.
  rewrite <- (app_nil_r rows). by rewrite (replay_app _ _ _ _ _ _ msgs).
Qed.

Lemma Forall_exists_Forall2 {A B} (P : A -> B -> Prop) (l : list A) :
  Forall (fun x => exists y, P x y) l -> exists k, Forall2 P l k.
Proof.
  induction 1 as [|x l [y Hy] _ [k IH]]; [by exists []|].
  exists (y :: k). by constructor.
Qed.

End EventFacts.

(** * The properties of the specification *)

Section Claims.
Context {message : Type} `{Proto message}.

(** C1, on the code. The specification says that two calls of [PersistEvent]
    with the same actor and index leave one row. The [events] table declares
    no key, so [INSERT OR REPLACE] finds no row to replace there: both rows
    stay, the earlier payload beside the later one. *)
Theorem PersistEvent_same_index_two_rows provider actorName eventIndex e1 e2
    b1 b2 (db : Database) rows :
  db !! "events" = Some (mkTable events_ddl rows) ->
  Marshal e1 = Ok b1 ->
  Marshal e2 = Ok b2 ->
  exists db1 db2,
    PersistEvent provider None actorName eventIndex e1 db = Returned db1 /\
    PersistEvent provider None actorName eventIndex e2 db1 = Returned db2 /\
    rows_of "events" db2
    = rows ++ [ mkRow actorName (MessageName e1) eventIndex b1;
                mkRow actorName (MessageName e2) eventIndex b2 ] /\
    length (filter (at_index actorName eventIndex) (rows_of "events" db2))
    = S (S (length (filter (at_index actorName eventIndex) rows))).
Proof.
  intros Hdb H1 H2. eexists _, _.
  rewrite (PersistEvent_returns _ _ _ _ _ _ _ H1 Hdb). split; [done|].
  erewrite (PersistEvent_returns _ _ _ _ _ _ _ H2);
    [|by rewrite lookup_insert_eq].
  split; [done|]. unfold rows_of. rewrite lookup_insert_eq. cbn [t_rows].
  rewrite <- app_assoc. cbn [app]. split; [done|].
  rewrite filter_app, length_app.
  rewrite filter_cons_True, filter_cons_True by done. cbn. lia.
Qed.

(** C3. In a database whose [snapshots] table is the provider's, whatever
    writes are made, no two snapshot rows have the same actor. A call of
    [PersistSnapshot] leaves exactly its own row for the actor and the rows
    of the other actors as they were, and [GetSnapshot] then gives back the
    snapshot just written and its index. *)
Theorem snapshots_one_row_per_actor provider reports cs (db0 : Database)
    actorName eventIndex snapshot pbBytes :
  quiet reports ->
  snapshots_keyed db0 ->
  Marshal snapshot = Ok pbBytes ->
  extractData actorName (MessageName snapshot) pbBytes = Ok snapshot ->
  let db := run_calls provider cs db0 in
  snapshots_keyed db /\
  exists db',
    PersistSnapshot provider None actorName eventIndex snapshot db
    = Returned db' /\
    snapshots_keyed db' /\
    filter (of_actor actorName) (rows_of "snapshots" db')
    = [ mkRow actorName (MessageName snapshot) eventIndex pbBytes ] /\
    (forall other, other <> actorName ->
       filter (of_actor other) (rows_of "snapshots" db')
       = filter (of_actor other) (rows_of "snapshots" db)) /\
    GetSnapshot provider reports actorName db'
    = (Some snapshot, eventIndex, true).
Proof.
  intros Hquiet Hk0 HM Hdec db.
  assert (Hk : snapshots_keyed db) by by apply run_calls_keeps_keyed.
  split; [done|].
  pose proof (PersistSnapshot_keeps_keyed provider None actorName eventIndex
                snapshot db Hk) as Hk'.
  destruct Hk as (rows & Hdb & Hnd).
  rewrite (PersistSnapshot_returns _ _ _ _ _ _ _ HM Hdb) in Hk' |- *.
  eexists. split; [done|]. split; [done|].
  unfold rows_of. rewrite lookup_insert_eq, Hdb. cbn [t_rows].
  split_and!.
  - by apply rows_after_PersistSnapshot.
  - intros other Hother. rewrite filter_app.
    rewrite filter_singleton_False by (unfold of_actor; cbn; congruence).
    rewrite app_nil_r, list_filter_filter. apply list_filter_iff.
    unfold of_actor. intros r. split; [by intros []|].
    intros Hr. split; [done|congruence].
  - erewrite (GetSnapshot_first_row provider reports actorName _ _
                (mkRow actorName (MessageName snapshot) eventIndex pbBytes)).
    + cbn [type_tag payload event_index]. by rewrite Hdec.
    + done.
    + by rewrite lookup_insert_eq.
    + by apply rows_after_PersistSnapshot.
Qed.

(** C6. For an actor without a snapshot row at the start and with no
    [PersistSnapshot] among the writes made since, [GetSnapshot] returns
    (nil, -1, false), whatever the driver reports during the read. *)
Theorem GetSnapshot_never_snapshotted provider reports cs actorName
    (db0 : Database) :
  Forall (fun r => actor_name r <> actorName) (rows_of "snapshots" db0) ->
  Forall (fun c => ~ writes_snapshot_of actorName c) cs ->
  GetSnapshot provider reports actorName (run_calls provider cs db0)
  = (None, -1, false).
Proof.
  intros Hrows Hcs. by apply GetSnapshot_no_row, run_calls_no_row.
Qed.

(** C2. When the driver reports nothing and the stored events of the actor
    from the starting index on decode, [GetEvents] returns after having
    given the consumer the messages of a list of rows which holds exactly
    the rows of the [events] table with that actor and an index not below
    the start, each as often as the table holds it and no other row, and in
    which an earlier row never has a higher index than a later one. When
    these rows have different indices, that list is the one list of them in
    strictly ascending order of index, so that what the consumer is given is
    fixed: the messages of these rows by ascending index. *)
Theorem GetEvents_delivers_stored provider reports actorName eventIndexStart
    (db : Database) t :
  quiet reports ->
  db !! "events" = Some t ->
  Forall (fun r => actor_name r = actorName ->
                   eventIndexStart <= event_index r ->
                   exists m, decoded actorName r m) (t_rows t) ->
  (exists selected msgs,
     selected ≡ₚ filter (fun r => actor_name r = actorName /\
                                  eventIndexStart <= event_index r)
                   (t_rows t) /\
     (forall r, r ∈ selected <->
                r ∈ t_rows t /\ actor_name r = actorName /\
                eventIndexStart <= event_index r) /\
     Forall (fun r => actor_name r = actorName /\
                      eventIndexStart <= event_index r) selected /\
     (forall i j ri rj,
        (i <= j)%nat -> selected !! i = Some ri -> selected !! j = Some rj ->
        event_index ri <= event_index rj) /\
     Forall2 (decoded actorName) selected msgs /\
     forall St (callback : message -> St -> St) st,
       GetEvents provider reports actorName eventIndexStart callback st db
       = Returned (foldl (fun s m => callback m s) st msgs)) /\
  (forall expected msgs,
     expected ≡ₚ filter (fun r => actor_name r = actorName /\
                                  eventIndexStart <= event_index r)
                   (t_rows t) ->
     StronglySorted (fun r1 r2 => event_index r1 < event_index r2) expected ->
     Forall2 (decoded actorName) expected msgs ->
     forall St (callback : message -> St -> St) st,
       GetEvents provider reports actorName eventIndexStart callback st db
       = Returned (foldl (fun s m => callback m s) st msgs)).
Proof.
  intros (Hq & Hc & Hs) Hdb Hall.
  destruct (select_events_sorted actorName eventIndexStart db t Hdb)
    as (selected & Hsel & Hperm & Hsorted).
  assert (Hfilter :
    filter (events_where actorName eventIndexStart) (t_rows t)
    = filter (fun r => actor_name r = actorName /\
                       eventIndexStart <= event_index r) (t_rows t)).
  { by apply list_filter_iff. }
  rewrite Hfilter in Hperm.
  assert (Hin : forall r, r ∈ selected <->
                  r ∈ t_rows t /\ actor_name r = actorName /\
                  eventIndexStart <= event_index r).
  { intros r. rewrite Hperm, list_elem_of_filter. tauto. }
  assert (Hget : forall msgs St (callback : message -> St -> St) st,
            Forall2 (decoded actorName) selected msgs ->
            GetEvents provider reports actorName eventIndexStart callback st db
            = Returned (foldl (fun s m => callback m s) st msgs)).
  { intros msgs St callback st Hmsgs.
    rewrite (GetEvents_replay _ _ _ _ _ _ _ selected) by done.
    unfold cursor_rows. rewrite Hc. apply replay_decoded; by auto. }
  split.
  - destruct (Forall_exists_Forall2 (decoded actorName) selected)
      as [msgs Hmsgs].
    { apply Forall_forall. intros r (Hr & Ha & Hi)%Hin.
      eapply Forall_forall in Hall; eauto. }
    exists selected, msgs. split_and!.
    + done.
    + done.
    + apply Forall_forall. by intros r (_ & Ha & Hi)%Hin.
    + intros i j ri rj. by apply (StronglySorted_lookup_le selected).
    + done.
    + intros St callback st. by apply Hget.
  - intros expected msgs Hexp Hstrict Hmsgs St callback st.
    apply Hget.
    replace selected with expected; [done|]. symmetry.
    apply (StronglySorted_unique_strong index_le); try done.
    + intros x1 x2 H1 H2 R1 R2. unfold index_le in R1, R2.
      rewrite Hperm, <- Hexp in H1.
      apply (strictly_sorted_inj expected); [done..|lia].
    + by apply strictly_sorted_le.
    + by rewrite Hperm, Hexp.
Qed.

(** C4. A row that does not decode, the type not registered or the payload
    not parsed, makes [GetSnapshot] return (nil, -1, false), which is what it
    returns when the row is not there; it makes [GetEvents] panic with the
    error of the decoding, the consumer having been given the events before
    the row and none after it. *)
Theorem decode_failure_asymmetry provider reports actorName (db : Database) :
  quiet reports ->
  (forall t r rest err,
     db !! "snapshots" = Some t ->
     filter (of_actor actorName) (t_rows t) = r :: rest ->
     extractData actorName (type_tag r) (payload r) = Err err ->
     GetSnapshot provider reports actorName db = (None, -1, false) /\
     GetSnapshot provider reports actorName db
     = GetSnapshot provider reports actorName
         (<["snapshots" :=
             mkTable (t_ddl t)
               (filter (fun r => ~ of_actor actorName r) (t_rows t))]> db)) /\
  (forall eventIndexStart pre bad post msgs err St
          (callback : message -> St -> St) st,
     select_events actorName eventIndexStart db = Ok (pre ++ bad :: post) ->
     Forall2 (decoded actorName) pre msgs ->
     extractData actorName (type_tag bad) (payload bad) = Err err ->
     GetEvents provider reports actorName eventIndexStart callback st db
     = Panicked err (foldl (fun s m => callback m s) st msgs)).
Proof.
  intros Hquiet. split.
  - intros t r rest err Hdb Hrows Herr.
    rewrite (GetSnapshot_first_row _ _ _ _ _ _ _ Hquiet Hdb Hrows), Herr.
    split; [done|]. symmetry. apply GetSnapshot_no_row.
    unfold rows_of. rewrite lookup_insert_eq. cbn [t_rows].
    apply Forall_forall. by intros r' [Hr' _]%list_elem_of_filter.
  - intros eventIndexStart pre bad post msgs err St callback st Hsel Hpre Herr.
    destruct Hquiet as (Hq & Hc & Hs).
    rewrite (GetEvents_replay _ _ _ _ _ _ _ _ Hq Hsel).
    unfold cursor_rows. rewrite Hc.
    rewrite (replay_app _ _ _ _ _ _ msgs) by done.
    cbn [replay]. rewrite Hs. cbn [scan_into]. by rewrite Herr.
Qed.

(** C9. [GetSnapshot] has two shapes of result only, (nil, -1, false) and
    (message, index, true), and none carries an error. A failed query, a
    cursor that fails at once, a failed scan of the row and a row that does
    not decode all give (nil, -1, false), the result for an actor without a
    snapshot row. *)
Theorem GetSnapshot_failures_look_absent provider actorName (db : Database) :
  (forall reports,
     GetSnapshot provider reports actorName db = (None, -1, false) \/
     exists m eventIndex,
       GetSnapshot provider reports actorName db = (Some m, eventIndex, true)) /\
  (forall reports,
     Forall (fun r => actor_name r <> actorName) (rows_of "snapshots" db) ->
     GetSnapshot provider reports actorName db = (None, -1, false)) /\
  (forall reports,
     is_Some (rr_query reports) ->
     GetSnapshot provider reports actorName db = (None, -1, false)) /\
  (forall reports err,
     rr_cursor reports = Some (0%nat, err) ->
     GetSnapshot provider reports actorName db = (None, -1, false)) /\
  (forall reports d err,
     rr_scan reports 0%nat = ScanFailed d err ->
     GetSnapshot provider reports actorName db = (None, -1, false)) /\
  (forall reports t r rest err,
     db !! "snapshots" = Some t ->
     filter (of_actor actorName) (t_rows t) = r :: rest ->
     extractData actorName (type_tag r) (payload r) = Err err ->
     GetSnapshot provider reports actorName db = (None, -1, false)).
Proof.
  split_and!.
  - intros reports. unfold GetSnapshot.
    destruct (row_Err _); [by left|].
    destruct (row_Scan _ _) as [[[snapshotType eventIndex] snapshotBytes]|e].
    + destruct (extractData _ _ _); [right; eauto|by left].
    + left. by destruct e.
  - intros reports. apply GetSnapshot_no_row.
  - intros reports [e He]. unfold GetSnapshot, QueryRowx. by rewrite He.
  - intros reports err Hc. unfold GetSnapshot, QueryRowx.
    destruct (rr_query reports); [done|].
    destruct (select_snapshot actorName db) as [rows|]; [|done].
    unfold row_Scan. cbn [row_Err row_rows]. rewrite Hc. by destruct err.
  - intros reports d err Hs. unfold GetSnapshot, QueryRowx.
    destruct (rr_query reports); [done|].
    destruct (select_snapshot actorName db) as [rows|]; [|done].
    unfold row_Scan. cbn [row_Err row_rows]. rewrite Hs.
    by destruct (rr_cursor reports) as [[[|n] e]|]; destruct rows;
      try destruct e; try destruct err.
  - intros reports t r rest err Hdb Hrows Herr.
    unfold GetSnapshot, QueryRowx, select_snapshot.
    destruct (rr_query reports); [done|]. rewrite Hdb, Hrows.
    unfold row_Scan. cbn [row_Err row_rows].
    destruct (rr_cursor reports) as [[[|n] e]|];
      try (by destruct e);
      (destruct (rr_scan reports 0%nat) as [|k e'];
         [cbn; by rewrite Herr|by destruct e']).
Qed.

(** C10. [GetEvents] reads on after a failed [Scan] with what the
    destinations hold: the decoding is given an empty payload, and an empty
    type name too when [Scan] has written nothing, and the result is the one of
    that decoding, in which the error of [Scan] does not appear. With no type
    registered under the empty name, a scan that fails before writing ends
    in the panic of an unsupported type. When the cursor fails after [n]
    rows, [GetEvents] returns as it does at the end of the rows, the
    consumer having been given the first [n] events only. *)
Theorem GetEvents_drops_scan_and_cursor_errors provider actorName
    (db : Database) :
  (forall reports eventIndexStart pre r post msgs d serr St
          (callback : message -> St -> St) st,
     rr_query reports = None ->
     rr_cursor reports = None ->
     select_events actorName eventIndexStart db = Ok (pre ++ r :: post) ->
     (forall i, (i < length pre)%nat -> rr_scan reports i = ScanOk) ->
     Forall2 (decoded actorName) pre msgs ->
     rr_scan reports (length pre) = ScanFailed d serr ->
     let eventType :=
       match d with
       | TypeDest => ""%string
       | IndexDest | BytesDest => type_tag r
       end in
     let delivered := foldl (fun s m => callback m s) st msgs in
     GetEvents provider reports actorName eventIndexStart callback st db
     = match extractData actorName eventType [] with
       | Err err => Panicked err delivered
       | Ok msg =>
           replay callback actorName reports (S (length pre)) post
             (callback msg delivered)
       end /\
     (d = TypeDest -> MessageType ""%string = None ->
      GetEvents provider reports actorName eventIndexStart callback st db
      = Panicked ErrUnsupportedType delivered)) /\
  (forall reports eventIndexStart rows msgs n cerr St
          (callback : message -> St -> St) st,
     rr_query reports = None ->
     rr_cursor reports = Some (n, cerr) ->
     (forall i, rr_scan reports i = ScanOk) ->
     select_events actorName eventIndexStart db = Ok rows ->
     Forall2 (decoded actorName) rows msgs ->
     GetEvents provider reports actorName eventIndexStart callback st db
     = Returned (foldl (fun s m => callback m s) st (take n msgs))).
Proof.
  split.
  - intros reports eventIndexStart pre r post msgs d serr St callback st
      Hq Hc Hsel Hscan Hpre Hfail eventType delivered.
    assert (Hget :
      GetEvents provider reports actorName eventIndexStart callback st db
      = match extractData actorName eventType [] with
        | Err err => Panicked err delivered
        | Ok msg =>
            replay callback actorName reports (S (length pre)) post
              (callback msg delivered)
        end).
    { rewrite (GetEvents_replay _ _ _ _ _ _ _ _ Hq Hsel).
      unfold cursor_rows. rewrite Hc.
      rewrite (replay_app _ _ _ _ _ _ msgs) by (try done; intros; apply Hscan; lia).
      cbn [replay Nat.add]. rewrite Hfail. subst eventType delivered.
      by destruct d. }
    split; [done|]. intros -> Hno. rewrite Hget. subst eventType.
    unfold extractData. by rewrite Hno.
  - intros reports eventIndexStart rows msgs n cerr St callback st
      Hq Hc Hscan Hsel Hdec.
    rewrite (GetEvents_replay _ _ _ _ _ _ _ _ Hq Hsel).
    unfold cursor_rows. rewrite Hc.
    apply replay_decoded; [by auto|]. by apply Forall2_take.
Qed.

End Claims.

Section ConstructionClaims.
Context `{GoLib}.

Lemma NewProviderFromEnv_sql env reports w dbUrl :
  url_Parse (EnvDBURL env) = Ok dbUrl ->
  Scheme dbUrl <> "inmem" ->
  exists n,
    n = (match (Atoi (EnvSnapshotInterval env)).2 with
         | Some _ => 1000
         | None => (Atoi (EnvSnapshotInterval env)).1
         end) /\
    NewProviderFromEnv env reports w
    = ((SqlState (NewSqlProvider dbUrl n reports w).1.1,
        (NewSqlProvider dbUrl n reports w).1.2),
       (NewSqlProvider dbUrl n reports w).2).
Proof.
  intros Hp Hs. eexists. split; [done|]. unfold NewProviderFromEnv.
  rewrite Hp. destruct (Atoi (EnvSnapshotInterval env)) as [n ok].
  rewrite bool_decide_eq_false_2 by done. cbn [fst snd].
  by destruct (NewSqlProvider _ _ _ _) as [[? ?] ?].
Qed.

(** C5. A scheme that is neither [mysql] nor [sqlite3] (nor, from the
    environment, [inmem]) gives the error of an invalid driver, no provider
    and an unchanged world. A reported failure of the creation of the
    directory, of the opening, of the ping or of the creation of a table
    gives an error and no provider. The result of a construction is always
    either a provider without an error or an error without a provider. After
    a construction that succeeds both tables exist: one that existed is as
    it was, one that did not is new and empty. *)
Theorem construction_all_or_nothing :
  (forall url n reports w,
     Scheme url <> "mysql" -> Scheme url <> "sqlite3" ->
     NewSqlProvider url n reports w
     = ((None, Some (ErrInvalidDriver (Scheme url))), w)) /\
  (forall env reports w dbUrl,
     url_Parse (EnvDBURL env) = Ok dbUrl ->
     Scheme dbUrl <> "inmem" ->
     Scheme dbUrl <> "mysql" -> Scheme dbUrl <> "sqlite3" ->
     exists ps,
       NewProviderFromEnv env reports w
       = ((ps, Some (ErrInvalidDriver (Scheme dbUrl))), w) /\
       provider_of ps = None) /\
  (forall url n reports w,
     step_fails url reports ->
     exists err, (NewSqlProvider url n reports w).1 = (None, Some err)) /\
  (forall url n reports w,
     (exists p, (NewSqlProvider url n reports w).1 = (Some p, None)) \/
     (exists err, (NewSqlProvider url n reports w).1 = (None, Some err))) /\
  (forall env reports w,
     (is_Some (provider_of (NewProviderFromEnv env reports w).1.1) /\
      (NewProviderFromEnv env reports w).1.2 = None) \/
     (provider_of (NewProviderFromEnv env reports w).1.1 = None /\
      is_Some (NewProviderFromEnv env reports w).1.2)) /\
  (forall url n reports w p w',
     NewSqlProvider url n reports w = ((Some p, None), w') ->
     is_Some (w_db w' !! "events") /\
     is_Some (w_db w' !! "snapshots") /\
     (forall name t, w_db w !! name = Some t -> w_db w' !! name = Some t) /\
     (w_db w !! "events" = None ->
      w_db w' !! "events" = Some (mkTable events_ddl [])) /\
     (w_db w !! "snapshots" = None ->
      w_db w' !! "snapshots" = Some (mkTable snapshots_ddl []))).
Proof.
  assert (Hbad : forall url n reports w,
            Scheme url <> "mysql" -> Scheme url <> "sqlite3" ->
            NewSqlProvider url n reports w
            = ((None, Some (ErrInvalidDriver (Scheme url))), w)).
  { intros url n reports w Hm Hs. unfold NewSqlProvider.
    rewrite bool_decide_eq_false_2; [done|]. by intros [|]. }
  split_and!.
  - done.
  - intros env reports w dbUrl Hp Hi Hm Hs.
    destruct (NewProviderFromEnv_sql env reports w dbUrl Hp Hi) as (n & _ & ->).
    rewrite Hbad by done. by eexists.
  - apply NewSqlProvider_step_fails.
  - apply NewSqlProvider_pair.
  - intros env reports w. unfold NewProviderFromEnv.
    destruct (url_Parse (EnvDBURL env)) as [dbUrl|]; [|right; cbn; eauto].
    destruct (Atoi (EnvSnapshotInterval env)) as [n ok].
    case_bool_decide; [left; cbn; eauto|].
    match goal with
    | |- context [ NewSqlProvider ?u ?m ?r ?x ] =>
        destruct (NewSqlProvider_pair u m r x) as [[p Hp]|[err Hp]];
        destruct (NewSqlProvider u m r x) as [[? ?] ?]
    end; cbn in Hp |- *; injection Hp as -> ->; [left|right]; cbn; eauto.
  - intros url n reports w p w'
      (_ & _ & _ & _ & _ & Hct)%NewSqlProvider_success.
    apply create_tables_ok in Hct as (_ & Hin & Hold & Hnew).
    assert (Hmade : forall v, v ∈ tables -> w_db w !! ct_name v = None ->
              w_db w' !! ct_name v = Some (mkTable v [])).
    { intros v Hv Hno.
      destruct (Hnew _ Hno) as [Hno'|(v' & Hv' & Hname & Hdb')].
      - destruct (Hin v Hv) as [t Ht]. congruence.
      - rewrite Hdb'. do 2 f_equal.
        by destruct (in_tables v Hv) as [->| ->],
             (in_tables v' Hv') as [->| ->]. }
    split_and!.
    + apply (Hin events_ddl). set_solver.
    + apply (Hin snapshots_ddl). set_solver.
    + done.
    + apply (Hmade events_ddl). set_solver.
    + apply (Hmade snapshots_ddl). set_solver.
Qed.

(** C7. Whatever the descriptor, the interval, the reports and the world, a
    provider made for the scheme [sqlite3] has a limit of one open
    connection; one made for another scheme, which can only be [mysql], has
    no limit of open connections and keeps up to 256 idle ones. *)
Theorem sqlite_single_connection url n reports w p w' :
  NewSqlProvider url n reports w = ((Some p, None), w') ->
  (Scheme url = "sqlite3" -> db_maxOpenConns (db p) = 1) /\
  (Scheme url <> "sqlite3" ->
   Scheme url = "mysql" /\
   db_maxIdleConns (db p) = 256 /\ db_maxOpenConns (db p) = 0).
Proof.
  intros (Hs & _ & _ & Hidle & Hopen & _)%NewSqlProvider_success.
  split.
  - intros Hsq. by rewrite Hopen, bool_decide_eq_true_2.
  - intros Hsq. rewrite Hidle, Hopen, bool_decide_eq_false_2 by done.
    by destruct Hs.
Qed.

(** C8. When [strconv.Atoi] rejects the interval setting, a provider that
    [NewProviderFromEnv] makes has the interval 1000, and when it accepts
    the setting the provider has the number read. [GetSnapshotInterval]
    of a provider made by [NewSqlProvider] is the interval it was given. *)
Theorem snapshot_interval_default :
  (forall env reports w ps w' err,
     (Atoi (EnvSnapshotInterval env)).2 = Some err ->
     NewProviderFromEnv env reports w = ((ps, None), w') ->
     exists p, provider_of ps = Some p /\ interval_of p = 1000) /\
  (forall env reports w ps w' n,
     Atoi (EnvSnapshotInterval env) = (n, None) ->
     NewProviderFromEnv env reports w = ((ps, None), w') ->
     exists p, provider_of ps = Some p /\ interval_of p = n) /\
  (forall url n reports w p w',
     NewSqlProvider url n reports w = ((Some p, None), w') ->
     GetSnapshotInterval p = n).
Proof.
  assert (Hget : forall url n reports w p w',
            NewSqlProvider url n reports w = ((Some p, None), w') ->
            GetSnapshotInterval p = n).
  { by intros url n reports w p w'
      (_ & _ & Hn & _)%NewSqlProvider_success. }
  assert (Hfrom : forall env reports w ps w',
            NewProviderFromEnv env reports w = ((ps, None), w') ->
            exists p, provider_of ps = Some p /\
              interval_of p
              = match (Atoi (EnvSnapshotInterval env)).2 with
                | Some _ => 1000
                | None => (Atoi (EnvSnapshotInterval env)).1
                end).
  { intros env reports w ps w'. unfold NewProviderFromEnv.
    destruct (url_Parse (EnvDBURL env)) as [dbUrl|]; [|done].
    destruct (Atoi (EnvSnapshotInterval env)) as [n ok].
    case_bool_decide.
    - intros [= <- <-]. eexists. by split.
    - destruct (NewSqlProvider _ _ _ _) as [[[p|] e] w1] eqn:Hnew;
        intros [= <- -> <-].
      + exists (inr p). split; [done|]. cbn [interval_of].
        by rewrite (Hget _ _ _ _ _ _ Hnew).
      + match type of Hnew with
        | NewSqlProvider ?u ?m ?r ?x = _ =>
            by destruct (NewSqlProvider_pair u m r x) as [[p Hp]|[e Hp]];
              rewrite Hnew in Hp
        end. }
  split_and!.
  - intros env reports w ps w' err Herr Hnew.
    destruct (Hfrom _ _ _ _ _ Hnew) as (p & Hp & Hi).
    exists p. by rewrite Herr in Hi.
  - intros env reports w ps w' n Hn Hnew.
    destruct (Hfrom _ _ _ _ _ Hnew) as (p & Hp & Hi).
    exists p. by rewrite Hn in Hi.
  - done.
Qed.

End ConstructionClaims.

#[local] Existing Instance Demo.demo_proto.
#[local] Existing Instance Demo.demo_lib.

Lemma PersistEvent_same_index_two_rows_witness :
  exists db1 db2,
    PersistEvent Demo.provider None "A" 3 (Demo.EventA Byte.x01) Demo.db0
    = Returned db1 /\
    PersistEvent Demo.provider None "A" 3 (Demo.EventA Byte.x02) db1
    = Returned db2 /\
    rows_of "events" db2
    = [] ++ [ mkRow "A" "EventA" 3 [Byte.x01];
              mkRow "A" "EventA" 3 [Byte.x02] ] /\
    length (filter (at_index "A" 3) (rows_of "events" db2))
    = S (S (length (filter (at_index "A" 3) []))).
Proof.
  refine (PersistEvent_same_index_two_rows Demo.provider "A" 3
            (Demo.EventA Byte.x01) (Demo.EventA Byte.x02)
            [Byte.x01] [Byte.x02] Demo.db0 [] _ _ _);
    vm_compute; reflexivity.
Defined.

Lemma GetEvents_delivers_stored_witness :
  GetEvents Demo.provider no_reports "A" 2 Demo.collect [] Demo.db_history
  = Returned [ Demo.EventA Byte.x02; Demo.EventA Byte.x05;
               Demo.EventB Byte.x07 ].
Proof.
  refine (proj2 (GetEvents_delivers_stored Demo.provider no_reports "A" 2
                   Demo.db_history
                   (mkTable events_ddl (rows_of "events" Demo.db_history))
                   _ _ _)
            [ mkRow "A" "EventA" 2 [Byte.x02]; mkRow "A" "EventA" 5 [Byte.x05];
              mkRow "A" "EventB" 7 [Byte.x07] ]
            [ Demo.EventA Byte.x02; Demo.EventA Byte.x05;
              Demo.EventB Byte.x07 ]
            _ _ _ (list Demo.msg) Demo.collect []).
  - by split_and!.
  - vm_compute. reflexivity.
  - match goal with
    | |- Forall ?P (t_rows ?t) =>
        let l := eval vm_compute in (t_rows t) in change (Forall P l)
    end.
    repeat (constructor; [intros _ _; eexists; reflexivity|]).
    constructor.
  - match goal with
    | |- ?e ≡ₚ ?f => let f' := eval vm_compute in f in change (e ≡ₚ f')
    end.
    exact (Permutation_app_comm [_] [_; _]).
  - repeat constructor.
  - repeat constructor.
Defined.

(** The example of the specification: of the events of actor A at the
    indices 0, 1, 2, 5 and 7, a read from index 2 gives the consumer those at
    2, 5 and 7, in that order, and none of actor B. *)
Example GetEvents_from_2 :
  GetEvents Demo.provider no_reports "A" 2 Demo.collect [] Demo.db_history
  = Returned [ Demo.EventA Byte.x02; Demo.EventA Byte.x05;
               Demo.EventB Byte.x07 ].
Proof. vm_compute. reflexivity. Qed.

Lemma snapshots_one_row_per_actor_witness :
  snapshots_keyed Demo.db_history /\
  exists db',
    PersistSnapshot Demo.provider None "B" 9 (Demo.SnapA Byte.x09)
      Demo.db_history
    = Returned db' /\
    snapshots_keyed db' /\
    filter (of_actor "B") (rows_of "snapshots" db')
    = [ mkRow "B" "SnapA" 9 [Byte.x09] ] /\
    (forall other, other <> "B"%string ->
       filter (of_actor other) (rows_of "snapshots" db')
       = filter (of_actor other) (rows_of "snapshots" Demo.db_history)) /\
    GetSnapshot Demo.provider no_reports "B" db'
    = (Some (Demo.SnapA Byte.x09), 9, true).
Proof.
  refine (snapshots_one_row_per_actor Demo.provider no_reports Demo.history
            Demo.db0 "B" 9 (Demo.SnapA Byte.x09) [Byte.x09] _ _ _ _).
  - by split_and!.
  - apply (NewSqlProvider_keyed Demo.sqlite_url 1000 no_open_reports
             Demo.fresh Demo.provider Demo.opened.2).
    + vm_compute. reflexivity.
    + left. vm_compute. reflexivity.
  - reflexivity.
  - reflexivity.
Defined.

Lemma GetSnapshot_never_snapshotted_witness :
  GetSnapshot Demo.provider Demo.query_rejected "A" Demo.db_history
  = (None, -1, false) /\
  GetSnapshot Demo.provider no_reports "A" Demo.db_history
  = (None, -1, false).
Proof.
  assert (H0 : Forall (fun r => actor_name r <> "A"%string)
                 (rows_of "snapshots" Demo.db0)).
  { vm_compute. constructor. }
  assert (Hcs : Forall (fun c => ~ writes_snapshot_of "A" c) Demo.history).
  { unfold Demo.history.
    repeat (constructor; [cbn; first [tauto|discriminate]|]). constructor. }
  split.
  - exact (GetSnapshot_never_snapshotted Demo.provider Demo.query_rejected
             Demo.history "A" Demo.db0 H0 Hcs).
  - exact (GetSnapshot_never_snapshotted Demo.provider no_reports
             Demo.history "A" Demo.db0 H0 Hcs).
Defined.

Lemma decode_failure_asymmetry_witness :
  GetSnapshot Demo.provider no_reports "A" Demo.db_bad = (None, -1, false) /\
  GetEvents Demo.provider no_reports "A" 1 Demo.collect [] Demo.db_bad
  = Panicked ErrUnsupportedType
      [ Demo.EventB Byte.x01; Demo.EventA Byte.x02 ].
Proof.
  destruct (decode_failure_asymmetry Demo.provider no_reports "A" Demo.db_bad)
    as [Hsnap Hev]; [by split_and!|].
  split.
  - refine (proj1 (Hsnap (mkTable snapshots_ddl (rows_of "snapshots" Demo.db_bad))
                     (mkRow "A" "EventA" 7 [Byte.xff]) []
                     (ErrUnmarshal "unexpected EOF") _ _ _));
      vm_compute; reflexivity.
  - refine (Hev 1 [ mkRow "A" "EventB" 1 [Byte.x01];
                    mkRow "A" "EventA" 2 [Byte.x02] ]
              (mkRow "A" "EventZ" 3 [Byte.x00])
              [ mkRow "A" "EventA" 5 [Byte.x05];
                mkRow "A" "EventB" 7 [Byte.x07] ]
              [ Demo.EventB Byte.x01; Demo.EventA Byte.x02 ]
              ErrUnsupportedType (list Demo.msg) Demo.collect [] _ _ _).
    + vm_compute. reflexivity.
    + repeat constructor.
    + reflexivity.
Defined.

Lemma construction_all_or_nothing_witness :
  NewSqlProvider (mkURL "postgres" "db:5432" "/flow") 10 no_open_reports
    Demo.fresh
  = ((None, Some (ErrInvalidDriver "postgres")), Demo.fresh) /\
  (exists err,
     (NewSqlProvider Demo.mysql_url 10 Demo.ping_fails Demo.fresh).1
     = (None, Some err)) /\
  is_Some (Demo.db0 !! "events") /\
  is_Some (Demo.db0 !! "snapshots").
Proof.
  destruct (@construction_all_or_nothing Demo.demo_lib)
    as (Hscheme & _ & Hstep & _ & _ & Htables).
  split_and!.
  - apply Hscheme; discriminate.
  - apply Hstep. right. right. left. vm_compute. eauto.
  - refine (proj1 (Htables Demo.sqlite_url 1000 no_open_reports Demo.fresh
                     Demo.provider Demo.opened.2 _)).
    vm_compute. reflexivity.
  - refine (proj1 (proj2 (Htables Demo.sqlite_url 1000 no_open_reports
                            Demo.fresh Demo.provider Demo.opened.2 _))).
    vm_compute. reflexivity.
Defined.

Lemma sqlite_single_connection_witness :
  db_maxOpenConns (db Demo.provider) = 1 /\
  (exists p,
     (NewSqlProvider Demo.mysql_url 10 no_open_reports Demo.fresh).1
     = (Some p, None) /\
     db_maxIdleConns (db p) = 256 /\ db_maxOpenConns (db p) = 0).
Proof.
  split.
  - refine (proj1 (sqlite_single_connection Demo.sqlite_url 1000
                     no_open_reports Demo.fresh Demo.provider Demo.opened.2 _)
              _).
    + vm_compute. reflexivity.
    + reflexivity.
  - eexists. split; [vm_compute; reflexivity|].
    refine (proj2 (proj2 (sqlite_single_connection Demo.mysql_url 10
                            no_open_reports Demo.fresh _
                            (NewSqlProvider Demo.mysql_url 10 no_open_reports
                               Demo.fresh).2 _) _)).
    + vm_compute. reflexivity.
    + discriminate.
Defined.

Lemma snapshot_interval_default_witness :
  (exists p,
     provider_of
       (NewProviderFromEnv (mkEnv "sqlite3:///data/flow.db" "often")
          no_open_reports Demo.fresh).1.1 = Some p /\
     interval_of p = 1000) /\
  (exists p,
     provider_of
       (NewProviderFromEnv (mkEnv "inmem://" "")
          no_open_reports Demo.fresh).1.1 = Some p /\
     interval_of p = 1000) /\
  GetSnapshotInterval Demo.provider = 1000.
Proof.
  destruct (@snapshot_interval_default Demo.demo_lib) as (Hdefault & _ & Hget).
  split_and!.
  - refine (Hdefault (mkEnv "sqlite3:///data/flow.db" "often") no_open_reports
              Demo.fresh _
              (NewProviderFromEnv (mkEnv "sqlite3:///data/flow.db" "often")
                 no_open_reports Demo.fresh).2
              (ErrSyntax "often") _ _);
      vm_compute; reflexivity.
  - refine (Hdefault (mkEnv "inmem://" "") no_open_reports Demo.fresh _
              (NewProviderFromEnv (mkEnv "inmem://" "") no_open_reports
                 Demo.fresh).2
              (ErrSyntax "") _ _);
      vm_compute; reflexivity.
  - refine (Hget Demo.sqlite_url 1000 no_open_reports Demo.fresh Demo.provider
              Demo.opened.2 _).
    vm_compute. reflexivity.
Defined.

Lemma GetSnapshot_failures_look_absent_witness :
  GetSnapshot Demo.provider Demo.query_rejected "B" Demo.db_history
  = (None, -1, false) /\
  GetSnapshot Demo.provider Demo.cursor_fails_third "A" Demo.db_bad
  = (None, -1, false).
Proof.
  split.
  - destruct (GetSnapshot_failures_look_absent Demo.provider "B"
                Demo.db_history) as (_ & _ & Hquery & _).
    apply Hquery. vm_compute. eauto.
  - destruct (GetSnapshot_failures_look_absent Demo.provider "A" Demo.db_bad)
      as (_ & _ & _ & _ & _ & Hdecode).
    refine (Hdecode Demo.cursor_fails_third
              (mkTable snapshots_ddl (rows_of "snapshots" Demo.db_bad))
              (mkRow "A" "EventA" 7 [Byte.xff]) []
              (ErrUnmarshal "unexpected EOF") _ _ _);
      vm_compute; reflexivity.
Defined.

Lemma GetEvents_drops_scan_and_cursor_errors_witness :
  GetEvents Demo.provider Demo.scan_fails_third "A" 0 Demo.collect []
    Demo.db_history
  = Panicked ErrUnsupportedType
      [ Demo.EventA Byte.x00; Demo.EventB Byte.x01 ] /\
  GetEvents Demo.provider Demo.cursor_fails_third "A" 0 Demo.collect []
    Demo.db_history
  = Returned [ Demo.EventA Byte.x00; Demo.EventB Byte.x01;
               Demo.EventA Byte.x02 ].
Proof.
  destruct (GetEvents_drops_scan_and_cursor_errors Demo.provider "A"
              Demo.db_history) as [Hscan Hcursor].
  split.
  - refine (proj2 (Hscan Demo.scan_fails_third 0
                     [ mkRow "A" "EventA" 0 [Byte.x00];
                       mkRow "A" "EventB" 1 [Byte.x01] ]
                     (mkRow "A" "EventA" 2 [Byte.x02])
                     [ mkRow "A" "EventA" 5 [Byte.x05];
                       mkRow "A" "EventB" 7 [Byte.x07] ]
                     [ Demo.EventA Byte.x00; Demo.EventB Byte.x01 ]
                     TypeDest (ErrDriver "sql: Rows are closed")
                     (list Demo.msg) Demo.collect [] _ _ _ _ _ _) _ _).
    + reflexivity.
    + reflexivity.
    + vm_compute. reflexivity.
    + intros [|[|i]] Hi; [reflexivity|reflexivity|cbn in Hi; lia].
    + repeat constructor.
    + reflexivity.
    + reflexivity.
    + reflexivity.
  - refine (Hcursor Demo.cursor_fails_third 0
              [ mkRow "A" "EventA" 0 [Byte.x00];
                mkRow "A" "EventB" 1 [Byte.x01];
                mkRow "A" "EventA" 2 [Byte.x02];
                mkRow "A" "EventA" 5 [Byte.x05];
                mkRow "A" "EventB" 7 [Byte.x07] ]
              [ Demo.EventA Byte.x00; Demo.EventB Byte.x01;
                Demo.EventA Byte.x02; Demo.EventA Byte.x05;
                Demo.EventB Byte.x07 ]
              3%nat (ErrDriver "connection reset by peer")
              (list Demo.msg) Demo.collect [] _ _ _ _ _).
    + reflexivity.
    + reflexivity.
    + reflexivity.
    + vm_compute. reflexivity.
    + repeat constructor.
Defined.

(** ** Concrete runs *)

(** The scenario of the specification: two events and a snapshot at index 1,
    then the snapshot is read back and a read of the events from index 2
    gives nothing. *)
Example scenario_snapshot_then_events :
  let db :=
    run_calls Demo.provider
      [ CallPersistEvent None "actor-1" 0 (Demo.EventA Byte.x0a);
        CallPersistEvent None "actor-1" 1 (Demo.EventB Byte.x0b);
        CallPersistSnapshot None "actor-1" 1 (Demo.SnapA Byte.x0c) ]
      Demo.db0 in
  GetSnapshot Demo.provider no_reports "actor-1" db
  = (Some (Demo.SnapA Byte.x0c), 1, true) /\
  GetEvents Demo.provider no_reports "actor-1" 2 Demo.collect [] db
  = Returned [].
Proof. split; vm_compute; reflexivity. Qed.

(** Events written at the same index are all read back, in the order in
    which they were written. *)
Example same_index_read_back :
  let db :=
    run_calls Demo.provider
      [ CallPersistEvent None "A" 3 (Demo.EventA Byte.x01);
        CallPersistEvent None "A" 3 (Demo.EventA Byte.x02);
        CallPersistEvent None "A" 3 (Demo.EventA Byte.x03) ]
      Demo.db0 in
  GetEvents Demo.provider no_reports "A" 3 Demo.collect [] db
  = Returned [ Demo.EventA Byte.x01; Demo.EventA Byte.x02;
               Demo.EventA Byte.x03 ].
Proof. vm_compute. reflexivity. Qed.

(** Two snapshots of one actor: the second one is the row that stays. *)
Example snapshot_written_twice :
  rows_of "snapshots"
    (run_calls Demo.provider
       [ CallPersistSnapshot None "A" 3 (Demo.SnapA Byte.x01);
         CallPersistSnapshot None "A" 5 (Demo.SnapA Byte.x02) ]
       Demo.db0)
  = [ mkRow "A" "SnapA" 5 [Byte.x02] ].
Proof. vm_compute. reflexivity. Qed.

(** A scan that fails at the payload of the third row: the row's type decodes
    the empty payload, the consumer is given a message that was never
    stored, and the read goes on to the end. *)
Example scan_fails_at_payload :
  GetEvents Demo.provider
    (mkReports None None
       (fun n => if bool_decide (n = 2%nat)
                 then ScanFailed BytesDest (ErrDriver "unsupported Scan")
                 else ScanOk))
    "A" 0 Demo.collect [] Demo.db_history
  = Returned [ Demo.EventA Byte.x00; Demo.EventB Byte.x01;
               Demo.mkMsg "EventA" []; Demo.EventA Byte.x05; Demo.EventB Byte.x07 ].
Proof. vm_compute. reflexivity. Qed.

(** [strconv.Atoi] on a few settings. *)
Example Atoi_runs :
  Atoi "250" = (250, None) /\
  Atoi "-7" = (-7, None) /\
  Atoi "" = (0, Some (ErrSyntax "")) /\
  Atoi "1e3" = (0, Some (ErrSyntax "1e3")) /\
  Atoi "9223372036854775808"
  = (9223372036854775807, Some (ErrRange "9223372036854775808")) /\
  Atoi "99999999999999999999x"
  = (9223372036854775807, Some (ErrRange "99999999999999999999x")).
Proof. by split_and!. Qed.

(** * Further properties of the provider *)

Section ReadFacts.
Context {message : Type} `{Proto message}.


Lemma replay_prefix {St} (callback : message -> St -> St) actorName reports n
    rows st :
  (forall i, rr_scan reports i = ScanOk) ->
  exists k msgs,
    Forall2 (decoded actorName) (take k rows) msgs /\
    state_of (replay callback actorName reports n rows st)
    = foldl (fun s m => callback m s) st msgs /\
    (forall s, replay callback actorName reports n rows st = Returned s ->
               take k rows = rows).
Proof.
  intros Hscan. revert n st.
  induction rows as [|r rows IH]; intros n st.
  - exists 0%nat, []. by split_and!.
  - cbn [replay]. rewrite Hscan. cbn [scan_into].
    destruct (extractData actorName (type_tag r) (payload r)) as [m|e] eqn:Hr.
    + destruct (IH (S n) (callback m st)) as (k & msgs & Hdec & Hst & Hret).
      exists (S k), (m :: msgs). split_and!.
      * by constructor.
      * done.
      * intros s Hs. cbn. f_equal. by eapply Hret.
    + exists 0%nat, []. split_and!; [constructor|done|done].
Qed.

(** X1. Whatever the cursor does and whichever rows decode, as long as
    [Scan] does not fail, what [GetEvents] has given the consumer when it
    ends (by returning or by a panic) is the messages of a prefix of the
    selected rows, in order: it skips no row and gives nothing after a row
    it could not decode. When it returns and the cursor has not failed, the
    prefix is the whole selection. *)
Theorem GetEvents_delivers_prefix {St} provider reports actorName
    eventIndexStart (callback : message -> St -> St) st (db : Database) rows :
  (forall n, rr_scan reports n = ScanOk) ->
  select_events actorName eventIndexStart db = Ok rows ->
  exists sel msgs,
    sel `prefix_of` rows /\
    Forall2 (decoded actorName) sel msgs /\
    state_of (GetEvents provider reports actorName eventIndexStart callback
                st db)
    = foldl (fun s m => callback m s) st msgs /\
    (rr_cursor reports = None ->
     forall s,
       GetEvents provider reports actorName eventIndexStart callback st db
       = Returned s ->
       sel = rows).
Proof.
  intros Hscan Hsel. unfold GetEvents. rewrite Hsel.
  destruct (rr_query reports) as [e|] eqn:Hq.
  { exists [], []. split_and!; [by exists rows|constructor|done|done]. }
  destruct (replay_prefix callback actorName reports 0
              (cursor_rows reports rows) st Hscan)
    as (k & msgs & Hdec & Hst & Hret).
  exists (take k (cursor_rows reports rows)), msgs. split_and!; try done.
  - unfold cursor_rows. destruct (rr_cursor reports) as [[n e]|].
    + rewrite take_take. apply prefix_take.
    + apply prefix_take.
  - intros Hc s Hs. rewrite (Hret s Hs). unfold cursor_rows. by rewrite Hc.
Qed.

(** X2. A snapshot that [GetSnapshot] reports as found is a row of the
    [snapshots] table: the row is of that actor, has the index returned and
    decodes to the message returned. *)
Theorem GetSnapshot_found_is_stored provider reports actorName
    (db : Database) m eventIndex :
  GetSnapshot provider reports actorName db = (Some m, eventIndex, true) ->
  exists r,
    r ∈ rows_of "snapshots" db /\
    actor_name r = actorName /\
    event_index r = eventIndex /\
    decoded actorName r m.
Proof.
  unfold GetSnapshot, QueryRowx, select_snapshot, rows_of.
  destruct (rr_query reports); [done|].
  destruct (db !! "snapshots") as [t|]; [|done].
  unfold row_Scan. cbn [row_Err row_rows].
  destruct (filter (of_actor actorName) (t_rows t)) as [|r rest] eqn:Hrows.
  { by destruct (rr_cursor reports) as [[[|n] e]|]; try destruct e. }
  assert (Hr : of_actor actorName r /\ r ∈ t_rows t).
  { apply (list_elem_of_filter (of_actor actorName)). rewrite Hrows. by left. }
  destruct Hr as [Ha Hin].
  assert (Hgoal :
    match rr_scan reports 0%nat with
    | ScanOk => Ok (scan_into ScanOk r)
    | ScanFailed _ err => Err err
    end = Ok (type_tag r, event_index r, payload r) \/
    exists err, match rr_scan reports 0%nat with
                | ScanOk => Ok (scan_into ScanOk r)
                | ScanFailed _ err => Err err
                end = Err err).
  { destruct (rr_scan reports 0%nat); [by left|right; eauto]. }
  destruct (rr_cursor reports) as [[[|n] e]|];
    try (by destruct e);
    (destruct Hgoal as [->|[err ->]]; [|by destruct err]);
    (destruct (extractData actorName (type_tag r) (payload r)) as [m'|] eqn:Hd;
       [|done]);
    intros [= <- <-]; by exists r.
Qed.

End ReadFacts.

Section WriteFacts.
Context {message : Type} `{Proto message}.

Lemma GetSnapshot_ext provider reports actorName (db1 db2 : Database) :
  select_snapshot actorName db1 = select_snapshot actorName db2 ->
  GetSnapshot provider reports actorName db1
  = GetSnapshot provider reports actorName db2.
Proof. intros Heq. unfold GetSnapshot, QueryRowx. by rewrite Heq. Qed.

Lemma GetEvents_ext {St} provider reports actorName eventIndexStart
    (callback : message -> St -> St) st (db1 db2 : Database) :
  select_events actorName eventIndexStart db1
  = select_events actorName eventIndexStart db2 ->
  GetEvents provider reports actorName eventIndexStart callback st db1
  = GetEvents provider reports actorName eventIndexStart callback st db2.
Proof. intros Heq. unfold GetEvents. by rewrite Heq. Qed.

(** What a write leaves in its own table. *)
Lemma PersistEvent_events provider report actorName eventIndex event
    (db : Database) rows :
  db !! "events" = Some (mkTable events_ddl rows) ->
  state_of (PersistEvent provider report actorName eventIndex event db)
    !! "events"
  = Some (mkTable events_ddl
            (rows ++
             option_list
               (logged (CallPersistEvent report actorName eventIndex event)))).
Proof.
  intros Hdb. unfold PersistEvent, exec_insert_or_replace. cbn [logged].
  destruct (Marshal event) as [pbBytes|];
    [|destruct report; cbn; by rewrite app_nil_r].
  destruct report; [cbn; by rewrite app_nil_r|].
  rewrite Hdb, insert_into_events. cbn. by rewrite lookup_insert_eq.
Qed.

Lemma PersistSnapshot_snapshots provider report actorName eventIndex snapshot
    (db : Database) rows :
  db !! "snapshots" = Some (mkTable snapshots_ddl rows) ->
  exists rows',
    state_of (PersistSnapshot provider report actorName eventIndex snapshot db)
      !! "snapshots"
    = Some (mkTable snapshots_ddl rows') /\
    forall other, other <> actorName ->
      filter (of_actor other) rows' = filter (of_actor other) rows.
Proof.
  intros Hdb. unfold PersistSnapshot, exec_insert_or_replace.
  destruct (Marshal snapshot) as [pbBytes|]; [|by exists rows].
  destruct report; [by exists rows|].
  rewrite Hdb, insert_into_snapshots. cbn [state_of].
  eexists. rewrite lookup_insert_eq. split; [done|].
  intros other Hother. rewrite filter_app.
  rewrite filter_singleton_False by (unfold of_actor; cbn; congruence).
  rewrite app_nil_r, list_filter_filter. apply list_filter_iff.
  unfold of_actor. intros r. cbn. split; [by intros []|].
  intros Hr. split; [done|congruence].
Qed.

(** X3. In the provider's [snapshots] table the last snapshot written for an
    actor wins: writing one snapshot and then another for the same actor
    leaves the database that the second write alone leaves, whatever the two
    indices (the second may be the lower one). The first write may also have
    failed. *)
Theorem PersistSnapshot_last_write_wins provider report1 actorName i1 i2
    snap1 snap2 pbBytes (db : Database) rows :
  db !! "snapshots" = Some (mkTable snapshots_ddl rows) ->
  Marshal snap2 = Ok pbBytes ->
  PersistSnapshot provider None actorName i2 snap2
    (state_of (PersistSnapshot provider report1 actorName i1 snap1 db))
  = PersistSnapshot provider None actorName i2 snap2 db.
Proof.
  intros Hdb HM2.
  unfold PersistSnapshot at 2. unfold exec_insert_or_replace.
  destruct (Marshal snap1) as [b1|]; [|done].
  destruct report1; [done|].
  rewrite Hdb, insert_into_snapshots. cbn [state_of].
  erewrite !PersistSnapshot_returns; try done; [|by rewrite lookup_insert_eq].
  rewrite insert_insert_eq. do 4 f_equal.
  rewrite filter_app, filter_singleton_False by (cbn; congruence).
  rewrite app_nil_r, list_filter_filter. apply list_filter_iff.
  intros r. tauto.
Qed.

(** X4. The provider's [events] table is a log: after any sequence of writes
    it holds the rows it held before, in their order, followed by one row
    for each [PersistEvent] that went through, in the order of the calls.
    No write removes or changes an event row. *)
Theorem events_append_only provider cs (db : Database) rows :
  db !! "events" = Some (mkTable events_ddl rows) ->
  run_calls provider cs db !! "events"
  = Some (mkTable events_ddl (rows ++ omap logged cs)).
Proof.
  unfold run_calls. revert db rows.
  induction cs as [|c cs IH]; intros db rows Hdb; cbn.
  { by rewrite app_nil_r. }
  destruct c as [report a i e|report a i e].
  - cbn [run_call].
    erewrite IH; [|by apply PersistEvent_events].
    rewrite <- app_assoc. do 3 f_equal.
    by destruct (logged (CallPersistEvent report a i e)).
  - cbn [run_call logged].
    apply IH. by rewrite PersistSnapshot_other_table.
Qed.

(** X6. Events are kept apart by actor: in the provider's [events] table a
    [PersistEvent] for one actor, failed or not, changes nothing of what
    [GetEvents] does for another actor. *)
Theorem PersistEvent_other_actor {St} provider report reports actorName other
    eventIndex event eventIndexStart (callback : message -> St -> St) st
    (db : Database) rows :
  db !! "events" = Some (mkTable events_ddl rows) ->
  other <> actorName ->
  GetEvents provider reports other eventIndexStart callback st
    (state_of (PersistEvent provider report actorName eventIndex event db))
  = GetEvents provider reports other eventIndexStart callback st db.
Proof.
  intros Hdb Hother. apply GetEvents_ext. unfold select_events.
  rewrite (PersistEvent_events _ _ _ _ _ _ _ Hdb), Hdb. cbn [t_rows].
  do 2 f_equal. rewrite filter_app.
  destruct (logged _) as [r|] eqn:Hr; [|by rewrite app_nil_r].
  change (option_list (Some r)) with [r].
  assert (Hr' : ~ events_where other eventIndexStart r).
  { cbn in Hr. destruct report; [done|].
    destruct (Marshal event); [|done]. injection Hr as <-.
    unfold events_where. cbn. intros [? _]. congruence. }
  rewrite filter_singleton_False by done. by rewrite app_nil_r.
Qed.

(** X7. Snapshots are kept apart by actor: in the provider's [snapshots]
    table a [PersistSnapshot] for one actor, failed or not, changes nothing
    of what [GetSnapshot] returns for another actor. *)
Theorem PersistSnapshot_other_actor provider report reports actorName other
    eventIndex snapshot (db : Database) rows :
  db !! "snapshots" = Some (mkTable snapshots_ddl rows) ->
  other <> actorName ->
  GetSnapshot provider reports other
    (state_of (PersistSnapshot provider report actorName eventIndex snapshot
                 db))
  = GetSnapshot provider reports other db.
Proof.
  intros Hdb Hother. apply GetSnapshot_ext. unfold select_snapshot.
  destruct (PersistSnapshot_snapshots provider report actorName eventIndex
              snapshot db rows Hdb) as (rows' & -> & Hrows).
  rewrite Hdb. cbn [t_rows]. f_equal. by apply Hrows.
Qed.

(** X8. The two stores do not touch each other: writing an event changes no
    result of [GetSnapshot], and writing a snapshot changes no result of
    [GetEvents]; a snapshot removes no event. *)
Theorem stores_independent {St} provider report reports actorName other
    eventIndex m eventIndexStart (callback : message -> St -> St) st
    (db : Database) :
  GetSnapshot provider reports other
    (state_of (PersistEvent provider report actorName eventIndex m db))
  = GetSnapshot provider reports other db /\
  GetEvents provider reports other eventIndexStart callback st
    (state_of (PersistSnapshot provider report actorName eventIndex m db))
  = GetEvents provider reports other eventIndexStart callback st db.
Proof.
  split.
  - apply GetSnapshot_ext. unfold select_snapshot.
    by rewrite PersistEvent_other_table.
  - apply GetEvents_ext. unfold select_events.
    by rewrite PersistSnapshot_other_table.
Qed.

End WriteFacts.

Section WriteThenRead.
Context {message : Type} `{Proto message}.


Lemma run_calls_keeps_tables provider (cs : list (call message))
    (db : Database) name :
  is_Some (db !! name) -> is_Some (run_calls provider cs db !! name).
Proof.
  unfold run_calls. revert db.
  induction cs as [|c cs IH]; intros db Hdb; [done|].
  cbn. apply IH.
  destruct c as [report a i e|report a i e]; cbn [run_call];
    unfold PersistEvent, PersistSnapshot, exec_insert_or_replace;
    (destruct (Marshal e); [|done]); (destruct report; [done|]).
  - destruct (db !! "events") eqn:Ht; [|done]. cbn.
    destruct (decide (name = "events")) as [->|Hne].
    + by rewrite lookup_insert_eq.
    + by rewrite lookup_insert_ne.
  - destruct (db !! "snapshots") eqn:Ht; [|done]. cbn.
    destruct (decide (name = "snapshots")) as [->|Hne].
    + by rewrite lookup_insert_eq.
    + by rewrite lookup_insert_ne.
Qed.

End WriteThenRead.

(** ** Further properties of the construction *)

Lemma create_tables_keeps reports stmts (db : Database) name t :
  db !! name = Some t ->
  (create_tables reports stmts db).2 !! name = Some t.
Proof.
  revert db. induction stmts as [|v stmts IH]; intros db Hdb; [done|].
  cbn. unfold exec_create_table.
  destruct (or_exec reports v); [done|].
  destruct (db !! ct_name v) eqn:Hv; [by apply IH|].
  apply IH. rewrite lookup_insert_ne; [done|]. intros <-. congruence.
Qed.

Lemma create_tables_present reports stmts (db : Database) :
  (forall v, v ∈ stmts -> is_Some (db !! ct_name v)) ->
  (create_tables reports stmts db).2 = db.
Proof.
  induction stmts as [|v stmts IH]; intros Hall; [done|].
  cbn. unfold exec_create_table.
  destruct (or_exec reports v); [done|].
  destruct (Hall v) as [t ->]; [by left|].
  apply IH. intros v' Hv'. apply Hall. by right.
Qed.

Lemma create_tables_error reports stmts (db db' : Database) err :
  create_tables reports stmts db = (Some err, db') ->
  exists v e,
    v ∈ stmts /\ or_exec reports v = Some e /\ err = ErrCreateTable v e.
Proof.
  revert db. induction stmts as [|v stmts IH]; intros db; [done|].
  cbn. unfold exec_create_table.
  destruct (or_exec reports v) as [e|] eqn:Hv.
  { intros [= <- <-]. exists v, e. split_and!; [by left|done|done]. }
  intros Hct.
  assert (exists db1, create_tables reports stmts db1 = (Some err, db'))
    as [db1 (v' & e & Hin & Hv' & ->)%IH].
  { destruct (db !! ct_name v); eauto. }
  exists v', e. split_and!; [by right|done|done].
Qed.

Lemma strip_prefix_app (prefix s : string) :
  strip_prefix prefix (prefix +:+ s) = Some s.
Proof.
  induction prefix as [|a prefix IH]; [by destruct s|].
  change (String a prefix +:+ s) with (String a (prefix +:+ s)).
  cbn [strip_prefix]. by rewrite Ascii.eqb_refl.
Qed.

Section MoreConstruction.
Context `{GoLib}.

(** The database [NewSqlProvider] leaves is the one it found, or the one the
    loop over [tables] leaves. *)
Lemma NewSqlProvider_db url n reports w :
  w_db (NewSqlProvider url n reports w).2 = w_db w \/
  w_db (NewSqlProvider url n reports w).2
  = (create_tables reports tables (w_db w)).2.
Proof.
  unfold NewSqlProvider, MkdirAll, sql_Open.
  case_bool_decide; [|by left].
  case_bool_decide.
  - destruct (or_mkdir reports); [by left|].
    destruct (or_open reports); [by left|].
    destruct (or_ping reports); [by left|].
    cbn [w_db]. right.
    by destruct (create_tables reports tables (w_db w)) as [[?|] ?].
  - destruct (or_open reports); [by left|].
    destruct (or_ping reports); [by left|].
    right. by destruct (create_tables reports tables (w_db w)) as [[?|] ?].
Qed.

(** X10. Construction never loses data: whether it succeeds or fails, every
    table the database had is still there with the same rows. On a database
    that has both tables, as after an earlier construction, it leaves the
    database exactly as it was. *)
Theorem NewSqlProvider_keeps_data url n reports w :
  (forall name t,
     w_db w !! name = Some t ->
     w_db (NewSqlProvider url n reports w).2 !! name = Some t) /\
  (is_Some (w_db w !! "events") ->
   is_Some (w_db w !! "snapshots") ->
   w_db (NewSqlProvider url n reports w).2 = w_db w).
Proof.
  destruct (NewSqlProvider_db url n reports w) as [-> | ->].
  { by split. }
  split.
  - intros name t. apply create_tables_keeps.
  - intros He Hs. apply create_tables_present.
    by intros v [->| ->]%in_tables.
Qed.

(** X11. The error of [NewSqlProvider] is the one of the first step that
    fails, in the order directory, open, ping, [events], [snapshots]; the
    error of a table is wrapped with the statement. The database is
    untouched when a step before the tables or the first table fails (the
    directories may not be: a failed [os.MkdirAll] leaves what it has
    made), and the [events] table has been created and stays when only the
    [snapshots] table fails. *)
Theorem NewSqlProvider_first_error url n reports w err :
  Scheme url = "mysql" \/ Scheme url = "sqlite3" ->
  let result := NewSqlProvider url n reports w in
  let mkdir_ok := Scheme url = "sqlite3" -> or_mkdir reports = None in
  (Scheme url = "sqlite3" -> or_mkdir reports = Some err ->
   result.1 = (None, Some err) /\ w_db result.2 = w_db w) /\
  (mkdir_ok -> or_open reports = Some err ->
   result.1 = (None, Some err) /\ w_db result.2 = w_db w) /\
  (mkdir_ok -> or_open reports = None -> or_ping reports = Some err ->
   result.1 = (None, Some err) /\ w_db result.2 = w_db w) /\
  (mkdir_ok -> or_open reports = None -> or_ping reports = None ->
   or_exec reports events_ddl = Some err ->
   result.1 = (None, Some (ErrCreateTable events_ddl err)) /\
   w_db result.2 = w_db w) /\
  (mkdir_ok -> or_open reports = None -> or_ping reports = None ->
   or_exec reports events_ddl = None ->
   or_exec reports snapshots_ddl = Some err ->
   result.1 = (None, Some (ErrCreateTable snapshots_ddl err)) /\
   is_Some (w_db result.2 !! "events")).
Proof.
  intros Hdrv result mkdir_ok. subst result mkdir_ok.
  unfold NewSqlProvider, MkdirAll, sql_Open.
  rewrite bool_decide_eq_true_2 by done.
  case_bool_decide as Hsq.
  - split_and!.
    + by intros _ ->.
    + intros Hmk. rewrite (Hmk Hsq). cbn. by intros ->.
    + intros Hmk. rewrite (Hmk Hsq). cbn. by intros -> ->.
    + intros Hmk. rewrite (Hmk Hsq). intros -> -> Hev.
      cbn. unfold exec_create_table. by rewrite Hev.
    + intros Hmk. rewrite (Hmk Hsq). intros -> -> Hev Hsn.
      cbn. unfold exec_create_table. rewrite Hev. cbn [ct_name events_ddl].
      destruct (w_db w !! "events") as [t|] eqn:Ht; cbn; rewrite Hsn; cbn.
      * by rewrite Ht.
      * split; [done|]. by rewrite lookup_insert_eq.
  - split_and!.
    + done.
    + by intros _ ->.
    + by intros _ -> ->.
    + intros _ -> -> Hev. cbn. unfold exec_create_table. by rewrite Hev.
    + intros _ -> -> Hev Hsn. cbn. unfold exec_create_table.
      rewrite Hev. cbn [ct_name events_ddl].
      destruct (w_db w !! "events") as [t|] eqn:Ht; cbn; rewrite Hsn; cbn.
      * by rewrite Ht.
      * split; [done|]. by rewrite lookup_insert_eq.
Qed.

(** X12. The driver is opened under the scheme of the descriptor, with the
    descriptor without its [scheme://] head as the data source. *)
Theorem NewSqlProvider_dataSource url n reports w p w' rest :
  NewSqlProvider url n reports w = ((Some p, None), w') ->
  url_String url = (Scheme url +:+ "://") +:+ rest ->
  db_driver (db p) = Scheme url /\ db_dataSource (db p) = rest.
Proof.
  unfold NewSqlProvider, MkdirAll, sql_Open, TrimPrefix.
  intros Hnew Hstr. rewrite Hstr, strip_prefix_app in Hnew.
  case_bool_decide; [|done].
  destruct (create_tables reports tables (w_db w)) as [cerr db'] eqn:Hct.
  case_bool_decide.
  - destruct (or_mkdir reports); [done|].
    destruct (or_open reports); [done|].
    destruct (or_ping reports); [done|].
    cbn [w_db] in Hnew. rewrite Hct in Hnew. destruct cerr; [done|].
    by injection Hnew as <- <-.
  - destruct (or_open reports); [done|].
    destruct (or_ping reports); [done|].
    rewrite Hct in Hnew. destruct cerr; [done|].
    by injection Hnew as <- <-.
Qed.

Lemma NewSqlProvider_errors url n reports w err :
  (NewSqlProvider url n reports w).1.2 = Some err ->
  err = ErrInvalidDriver (Scheme url) \/
  or_mkdir reports = Some err \/
  or_open reports = Some err \/
  or_ping reports = Some err \/
  exists v e,
    v ∈ tables /\ or_exec reports v = Some e /\ err = ErrCreateTable v e.
Proof.
  unfold NewSqlProvider, MkdirAll, sql_Open.
  case_bool_decide; [|cbn; intros [= <-]; by left].
  destruct (create_tables reports tables (w_db w)) as [cerr db'] eqn:Hct.
  assert (Htab : cerr = Some err ->
            exists v e, v ∈ tables /\ or_exec reports v = Some e /\
                        err = ErrCreateTable v e).
  { intros ->. by eapply create_tables_error. }
  case_bool_decide.
  - destruct (or_mkdir reports) eqn:?; [cbn; intros [= <-]; auto|].
    destruct (or_open reports) eqn:?; [cbn; intros [= <-]; auto|].
    destruct (or_ping reports) eqn:?; [cbn; intros [= <-]; auto|].
    cbn [w_db]. rewrite Hct. destruct cerr; cbn; [|done].
    intros [= <-]. do 4 right. by apply Htab.
  - destruct (or_open reports) eqn:?; [cbn; intros [= <-]; auto|].
    destruct (or_ping reports) eqn:?; [cbn; intros [= <-]; auto|].
    rewrite Hct. destruct cerr; cbn; [|done].
    intros [= <-]. do 4 right. by apply Htab.
Qed.

(** X13. The errors [NewProviderFromEnv] can return are these: the invalid
    URL, when the descriptor does not parse (the cause is dropped); and, for
    a scheme other than [inmem], the invalid driver, an error reported for
    the directory, the opening or the ping, or the wrapped error of a table.
    A setting of the interval that does not parse is never an error, and
    the scheme [inmem] never fails. *)
Theorem NewProviderFromEnv_errors env reports w err :
  (NewProviderFromEnv env reports w).1.2 = Some err ->
  (exists cause,
     url_Parse (EnvDBURL env) = Err cause /\
     err = ErrInvalidURL (EnvDBURL env)) \/
  (exists dbUrl,
     url_Parse (EnvDBURL env) = Ok dbUrl /\
     Scheme dbUrl <> "inmem" /\
     (err = ErrInvalidDriver (Scheme dbUrl) \/
      or_mkdir reports = Some err \/
      or_open reports = Some err \/
      or_ping reports = Some err \/
      exists v e,
        v ∈ tables /\ or_exec reports v = Some e /\
        err = ErrCreateTable v e)).
Proof.
  unfold NewProviderFromEnv.
  destruct (url_Parse (EnvDBURL env)) as [dbUrl|cause] eqn:Hp.
  - destruct (Atoi (EnvSnapshotInterval env)) as [m ok].
    case_bool_decide as Hin; [done|].
    intros Herr. right. exists dbUrl. split_and!; [done|done|].
    match type of Herr with
    | context [ NewSqlProvider ?u ?k ?r ?x ] =>
        apply (NewSqlProvider_errors u k r x);
        by destruct (NewSqlProvider u k r x) as [[? ?] ?]
    end.
  - cbn. intros [= <-]. left. eauto.
Qed.

End MoreConstruction.

Section AfterConstruction.
Context {message : Type} `{Proto message} `{GoLib}.

(** X9. After a construction that succeeded, and whatever writes were made
    since, a write of a message that can be encoded, with nothing reported
    by the driver, returns: it does not panic. *)
Theorem writes_return_after_construction url n reports w p w' provider
    (cs : list (call message)) actorName eventIndex m pbBytes :
  NewSqlProvider url n reports w = ((Some p, None), w') ->
  Marshal m = Ok pbBytes ->
  let db := run_calls provider cs (w_db w') in
  (exists db',
     PersistEvent provider None actorName eventIndex m db = Returned db') /\
  (exists db',
     PersistSnapshot provider None actorName eventIndex m db = Returned db').
Proof.
  intros (_ & _ & _ & _ & _ & Hct)%NewSqlProvider_success HM db.
  apply create_tables_ok in Hct as (_ & Hin & _).
  assert (He : is_Some (db !! "events")).
  { apply run_calls_keeps_tables, (Hin events_ddl). set_solver. }
  assert (Hs : is_Some (db !! "snapshots")).
  { apply run_calls_keeps_tables, (Hin snapshots_ddl). set_solver. }
  destruct He as [te He], Hs as [ts Hs].
  unfold PersistEvent, PersistSnapshot, exec_insert_or_replace.
  rewrite HM, He, Hs. eauto.
Qed.

End AfterConstruction.

(** ** Runs of the further properties *)

Lemma GetEvents_delivers_prefix_witness :
  exists sel msgs,
    sel `prefix_of`
      [ mkRow "A" "EventA" 0 [Byte.x00]; mkRow "A" "EventB" 1 [Byte.x01];
        mkRow "A" "EventA" 2 [Byte.x02]; mkRow "A" "EventA" 5 [Byte.x05];
        mkRow "A" "EventB" 7 [Byte.x07] ] /\
    Forall2 (decoded "A") sel msgs /\
    state_of (GetEvents Demo.provider Demo.cursor_fails_third "A" 0
                Demo.collect [] Demo.db_history)
    = foldl (fun s m => Demo.collect m s) [] msgs /\
    (rr_cursor Demo.cursor_fails_third = None ->
     forall s,
       GetEvents Demo.provider Demo.cursor_fails_third "A" 0 Demo.collect []
         Demo.db_history
       = Returned s ->
       sel
       = [ mkRow "A" "EventA" 0 [Byte.x00]; mkRow "A" "EventB" 1 [Byte.x01];
           mkRow "A" "EventA" 2 [Byte.x02]; mkRow "A" "EventA" 5 [Byte.x05];
           mkRow "A" "EventB" 7 [Byte.x07] ]).
Proof.
  refine (GetEvents_delivers_prefix Demo.provider Demo.cursor_fails_third "A"
            0 Demo.collect [] Demo.db_history _ _ _).
  - intros n. reflexivity.
  - vm_compute. reflexivity.
Defined.

Lemma GetSnapshot_found_is_stored_witness :
  exists r,
    r ∈ rows_of "snapshots" Demo.db_history /\
    actor_name r = "B"%string /\
    event_index r = 6 /\
    decoded "B" r (Demo.SnapA Byte.x06).
Proof.
  refine (GetSnapshot_found_is_stored Demo.provider no_reports "B"
            Demo.db_history (Demo.SnapA Byte.x06) 6 _).
  vm_compute. reflexivity.
Defined.

Lemma PersistSnapshot_last_write_wins_witness :
  PersistSnapshot Demo.provider None "A" 5 (Demo.SnapA Byte.x02)
    (state_of
       (PersistSnapshot Demo.provider None "A" 3 (Demo.SnapA Byte.x01)
          Demo.db0))
  = PersistSnapshot Demo.provider None "A" 5 (Demo.SnapA Byte.x02) Demo.db0.
Proof.
  refine (PersistSnapshot_last_write_wins Demo.provider None "A" 3 5
            (Demo.SnapA Byte.x01) (Demo.SnapA Byte.x02) [Byte.x02] Demo.db0
            [] _ _);
    vm_compute; reflexivity.
Defined.

Lemma events_append_only_witness :
  run_calls Demo.provider Demo.history Demo.db0 !! "events"
  = Some (mkTable events_ddl ([] ++ omap logged Demo.history)).
Proof.
  refine (events_append_only Demo.provider Demo.history Demo.db0 [] _).
  vm_compute. reflexivity.
Defined.


Lemma PersistEvent_other_actor_witness :
  GetEvents Demo.provider no_reports "B" 0 Demo.collect []
    (state_of
       (PersistEvent Demo.provider None "A" 9 (Demo.EventA Byte.x09)
          Demo.db_history))
  = GetEvents Demo.provider no_reports "B" 0 Demo.collect [] Demo.db_history.
Proof.
  refine (PersistEvent_other_actor Demo.provider None no_reports "A" "B" 9
            (Demo.EventA Byte.x09) 0 Demo.collect [] Demo.db_history
            (rows_of "events" Demo.db_history) _ _).
  - vm_compute. reflexivity.
  - discriminate.
Defined.

Lemma PersistSnapshot_other_actor_witness :
  GetSnapshot Demo.provider no_reports "B"
    (state_of
       (PersistSnapshot Demo.provider None "A" 7 (Demo.SnapA Byte.x07)
          Demo.db_history))
  = GetSnapshot Demo.provider no_reports "B" Demo.db_history.
Proof.
  refine (PersistSnapshot_other_actor Demo.provider None no_reports "A" "B" 7
            (Demo.SnapA Byte.x07) Demo.db_history
            (rows_of "snapshots" Demo.db_history) _ _).
  - vm_compute. reflexivity.
  - discriminate.
Defined.

Lemma writes_return_after_construction_witness :
  (exists db',
     PersistEvent Demo.provider None "C" 1 (Demo.EventA Byte.x01)
       Demo.db_history
     = Returned db') /\
  (exists db',
     PersistSnapshot Demo.provider None "C" 1 (Demo.EventA Byte.x01)
       Demo.db_history
     = Returned db').
Proof.
  refine (writes_return_after_construction Demo.sqlite_url 1000
            no_open_reports Demo.fresh Demo.provider Demo.opened.2
            Demo.provider Demo.history "C" 1 (Demo.EventA Byte.x01)
            [Byte.x01] _ _).
  - vm_compute. reflexivity.
  - reflexivity.
Defined.

Lemma NewSqlProvider_keeps_data_witness :
  w_db
    (NewSqlProvider Demo.sqlite_url 5 Demo.ping_fails
       (mkWorld ∅ Demo.db_history)).2
  = Demo.db_history.
Proof.
  refine (proj2 (NewSqlProvider_keeps_data Demo.sqlite_url 5 Demo.ping_fails
                   (mkWorld ∅ Demo.db_history)) _ _);
    vm_compute; eauto.
Defined.

Lemma NewSqlProvider_first_error_witness :
  let reports :=
    mkOpenReports None 0 None None
      (fun v => if bool_decide (ct_name v = "snapshots")
                then Some (ErrDriver "disk full") else None) in
  let denied :=
    mkOpenReports (Some (ErrDriver "permission denied")) 1 None None
      (fun _ => None) in
  ((NewSqlProvider Demo.mysql_url 5 reports Demo.fresh).1
   = (None, Some (ErrCreateTable snapshots_ddl (ErrDriver "disk full"))) /\
   is_Some
     (w_db (NewSqlProvider Demo.mysql_url 5 reports Demo.fresh).2
        !! "events")) /\
  ((NewSqlProvider Demo.sqlite_url 5 denied Demo.fresh).1
   = (None, Some (ErrDriver "permission denied")) /\
   w_db (NewSqlProvider Demo.sqlite_url 5 denied Demo.fresh).2
   = w_db Demo.fresh).
Proof.
  intros reports denied. split.
  - refine (proj2 (proj2 (proj2 (proj2
              (NewSqlProvider_first_error Demo.mysql_url 5 reports Demo.fresh
                 (ErrDriver "disk full") _)))) _ _ _ _ _).
    + by left.
    + discriminate.
    + reflexivity.
    + reflexivity.
    + reflexivity.
    + reflexivity.
  - refine (proj1 (NewSqlProvider_first_error Demo.sqlite_url 5 denied
                     Demo.fresh (ErrDriver "permission denied") _) _ _).
    + by right.
    + reflexivity.
    + reflexivity.
Defined.

Lemma NewSqlProvider_dataSource_witness :
  db_driver (db Demo.provider) = "sqlite3"%string /\
  db_dataSource (db Demo.provider) = "/data/flow.db"%string.
Proof.
  refine (NewSqlProvider_dataSource Demo.sqlite_url 1000 no_open_reports
            Demo.fresh Demo.provider Demo.opened.2 "/data/flow.db" _ _).
  - vm_compute. reflexivity.
  - reflexivity.
Defined.

Lemma NewProviderFromEnv_errors_witness :
  (exists cause,
     url_Parse "postgres://db/flow" = Err cause /\
     ErrInvalidDriver "postgres" = ErrInvalidURL "postgres://db/flow") \/
  (exists dbUrl,
     url_Parse "postgres://db/flow" = Ok dbUrl /\
     Scheme dbUrl <> "inmem"%string /\
     (ErrInvalidDriver "postgres" = ErrInvalidDriver (Scheme dbUrl) \/
      or_mkdir no_open_reports = Some (ErrInvalidDriver "postgres") \/
      or_open no_open_reports = Some (ErrInvalidDriver "postgres") \/
      or_ping no_open_reports = Some (ErrInvalidDriver "postgres") \/
      exists v e,
        v ∈ tables /\ or_exec no_open_reports v = Some e /\
        ErrInvalidDriver "postgres" = ErrCreateTable v e)).
Proof.
  refine (NewProviderFromEnv_errors (mkEnv "postgres://db/flow" "x")
            no_open_reports Demo.fresh (ErrInvalidDriver "postgres") _).
  vm_compute. reflexivity.
Defined.

Section RoundTrip.
Context {message : Type} `{Proto message}.





End RoundTrip.


Section Directories.
Context `{GoLib}.

(** X15. The directory is the first thing [NewSqlProvider] makes, and only
    for [sqlite3]: for another scheme the directories are as they were, and
    for [sqlite3] the directory of the path exists afterwards as soon as its
    creation went through, also when the opening, the ping or a table then
    fails. *)
Theorem NewSqlProvider_directory url n reports w :
  (Scheme url <> "sqlite3" ->
   w_dirs (NewSqlProvider url n reports w).2 = w_dirs w) /\
  (Scheme url = "sqlite3" -> or_mkdir reports = None ->
   filepath_Dir (Path url) ∈ w_dirs (NewSqlProvider url n reports w).2).
Proof.
  unfold NewSqlProvider, MkdirAll, sql_Open. split.
  - intros Hsq. case_bool_decide; [|done].
    rewrite bool_decide_eq_false_2 by done.
    destruct (or_open reports); [done|].
    destruct (or_ping reports); [done|].
    by destruct (create_tables reports tables (w_db w)) as [[?|] ?].
  - intros Hsq ->. rewrite !bool_decide_eq_true_2 by auto.
    assert (Hin : filepath_Dir (Path url)
                    ∈ (list_to_set
                         (filepath_Dir (Path url)
                            :: parents (filepath_Dir (Path url)))
                       ∪ w_dirs w : gset string)).
    { apply elem_of_union_l, elem_of_list_to_set. by left. }
    destruct (or_open reports); [done|].
    destruct (or_ping reports); [done|].
    cbn [w_db w_dirs].
    by destruct (create_tables reports tables (w_db w)) as [[?|] ?].
Qed.

End Directories.

Lemma NewSqlProvider_directory_witness :
  w_dirs (NewSqlProvider Demo.mysql_url 5 no_open_reports Demo.fresh).2
  = w_dirs Demo.fresh /\
  "/data"%string
    ∈ w_dirs (NewSqlProvider Demo.sqlite_url 5 Demo.ping_fails Demo.fresh).2.
Proof.
  split.
  - refine (proj1 (NewSqlProvider_directory Demo.mysql_url 5 no_open_reports
                     Demo.fresh) _).
    discriminate.
  - refine (proj2 (NewSqlProvider_directory Demo.sqlite_url 5 Demo.ping_fails
                     Demo.fresh) _ _); reflexivity.
Defined.
